(** * PlacePulse: mood resolution, relevance scoring, filtering, sorting,
      result aggregation, the details cache and search supersession.

    A shallow embedding of the JavaScript sources
      - utils/moodMapping.js (src/unnamed/part_002, lines 409-853):
          moodMappings, getMoodMapping, calculateRelevanceScore
      - utils/constants.js (src/unnamed/part_001)
      - utils/filterSort.js (src/src/utils/animations.js, lines 375-627):
          filterPlaces, sortPlaces, calculatePlaceScore, filterAndSortPlaces
      - services/placesApi.js (src/src/services/placesApi.js):
          searchNearbyPlaces, textSearchPlaces, getPlaceDetails,
          searchMultipleTypes
      - hooks/usePlaces.js (src/src/hooks/usePlaces.js): searchByMood
    followed by the properties proved about them.

    Conventions of the embedding.
      - A JavaScript number is an exact rational ([Q]); NaN and the
        infinities are not represented.  The one place where the source
        uses [Infinity] (the default of [maxDistance]) is an absent field.
      - An optional object field is an [option]; [undefined] is [None].
      - Strings are sequences of ASCII characters: [toLowerCase] maps A-Z,
        [trim] removes the ASCII white space characters.
      - A promise is represented by its settlement.
      - [Array.prototype.sort] is the stable sort (ECMAScript 2019); for the
        comparators of this program, which are all consistent, the result
        is determined by stability and does not depend on the algorithm. *)

From Stdlib Require Import QArith Qround ZArith String Ascii List Lia.
From Stdlib Require Import Sorting.Sorted Sorting.Permutation Lqa.
From stdpp Require Import gmap strings list.

Local Open Scope string_scope.

(** ** JavaScript primitives used by the sources *)

Module JS.

Abbreviation number := Q (only parsing).

(** [if (x)] on a number: every number but 0 is truthy. *)
Definition truthy (x : number) : bool := negb (Qeq_bool x 0).

(** [if (o.field)] on an optional numeric field. *)
Definition truthy_field (o : option number) : option number :=
  match o with
  | Some x => if truthy x then Some x else None
  | None => None
  end.

Definition lt (x y : number) : bool := negb (Qle_bool y x).
Definition gt (x y : number) : bool := lt y x.
Definition ge (x y : number) : bool := Qle_bool y x.

(** [Math.round]: the nearest integer, halves towards plus infinity. *)
Definition Math_round (x : number) : Z := Qfloor (x + 0.5)%Q.

Definition Math_min (x y : number) : number := if Qle_bool x y then x else y.
Definition Math_max (x y : number) : number := if Qle_bool x y then y else x.

(** [Array.prototype.includes] on arrays of strings and of numbers. *)
Definition includes_str (l : list string) (s : string) : bool :=
  existsb (String.eqb s) l.

Definition includes_num (l : list number) (x : number) : bool :=
  existsb (Qeq_bool x) l.

(** [String.prototype.includes]: [sub] occurs somewhere in [s]. *)
Fixpoint includes (s sub : string) : bool :=
  String.prefix sub s ||
  match s with
  | EmptyString => false
  | String _ s' => includes s' sub
  end.

Definition lower_ascii (c : ascii) : ascii :=
  let n := nat_of_ascii c in
  if ((65 <=? n)%nat && (n <=? 90)%nat)%bool then ascii_of_nat (n + 32) else c.

Fixpoint toLowerCase (s : string) : string :=
  match s with
  | EmptyString => EmptyString
  | String c s' => String (lower_ascii c) (toLowerCase s')
  end.

Definition is_white (c : ascii) : bool :=
  let n := nat_of_ascii c in
  ((9 <=? n)%nat && (n <=? 13)%nat || (n =? 32)%nat)%bool.

Fixpoint trimStart (s : string) : string :=
  match s with
  | EmptyString => EmptyString
  | String c s' => if is_white c then trimStart s' else s
  end.

Fixpoint trimEnd (s : string) : string :=
  match s with
  | EmptyString => EmptyString
  | String c s' =>
      match trimEnd s' with
      | EmptyString => if is_white c then EmptyString else String c EmptyString
      | t => String c t
      end
  end.

Definition trim (s : string) : string := trimEnd (trimStart s).

(** [s.replace(/-/g, ' ')]. *)
Fixpoint replace_hyphens (s : string) : string :=
  match s with
  | EmptyString => EmptyString
  | String c s' =>
      String (if Ascii.eqb c "-"%char then " "%char else c) (replace_hyphens s')
  end.

(** [Array.prototype.indexOf], with [None] for -1. *)
Fixpoint indexOf (l : list string) (s : string) : option nat :=
  match l with
  | [] => None
  | x :: l' => if String.eqb x s then Some O else option_map S (indexOf l' s)
  end.

(** The settlement of a promise. *)
Inductive promise (A : Type) : Type :=
  | Fulfilled (value : A)
  | Rejected (reason : string).
Arguments Fulfilled {A} value.
Arguments Rejected {A} reason.

(** [p.catch(handler)] with a handler that returns a plain value. *)
Definition catch {A : Type} (p : promise A) (handler : string -> A) : promise A :=
  match p with
  | Fulfilled v => Fulfilled v
  | Rejected e => Fulfilled (handler e)
  end.

(** [Promise.all]: rejects with the first rejection, else fulfils with all
    the values in order. *)
Fixpoint Promise_all {A : Type} (ps : list (promise A)) : promise (list A) :=
  match ps with
  | [] => Fulfilled []
  | p :: ps' =>
      match p with
      | Rejected e => Rejected e
      | Fulfilled v =>
          match Promise_all ps' with
          | Rejected e => Rejected e
          | Fulfilled vs => Fulfilled (v :: vs)
          end
      end
  end.

(** [Array.prototype.sort(cmp)]: stable; [x] goes before the first element
    it does not compare greater than. *)
Section Sort.
Context {A : Type} (cmp : A -> A -> number).

Fixpoint sort_insert (x : A) (l : list A) : list A :=
  match l with
  | [] => [x]
  | y :: l' => if gt (cmp x y) 0%Q then y :: sort_insert x l' else x :: l
  end.

Fixpoint sort (l : list A) : list A :=
  match l with
  | [] => []
  | x :: l' => sort_insert x (sort l')
  end.

(** [a] may stand immediately before [b] in a sorted array. *)
Definition in_order (a b : A) : Prop := gt (cmp a b) 0%Q = false.

End Sort.

(** The names every object literal inherits from [Object.prototype]; each
    of them reads as a truthy value (a function, or the prototype object
    for [__proto__]). *)
Definition Object_prototype_names : list string :=
  [ "constructor"; "__defineGetter__"; "__defineSetter__"; "hasOwnProperty";
    "__lookupGetter__"; "__lookupSetter__"; "isPrototypeOf";
    "propertyIsEnumerable"; "toString"; "valueOf"; "__proto__";
    "toLocaleString" ].

End JS.

(** ** Data model *)

(** A place record as the provider returns it, enriched by the application
    with [distance] and [relevanceScore]. *)
Module Place.

Record LatLng : Type := { lat : JS.number; lng : JS.number }.

Record OpeningHours : Type := { open_now : option bool }.

Record t : Type := {
  place_id : string;
  name : option string;
  vicinity : option string;
  types : option (list string);
  location : LatLng;                       (* geometry.location *)
  rating : option JS.number;
  user_ratings_total : option JS.number;
  price_level : option JS.number;
  opening_hours : option OpeningHours;
  distance : option JS.number;
  relevanceScore : option Z
}.

(** [{ ...place, distance: d }] *)
Definition with_distance (place : t) (d : JS.number) : t :=
  {| place_id := place_id place; name := name place;
     vicinity := vicinity place; types := types place;
     location := location place; rating := rating place;
     user_ratings_total := user_ratings_total place;
     price_level := price_level place;
     opening_hours := opening_hours place;
     distance := Some d; relevanceScore := relevanceScore place |}.

(** [{ ...place, relevanceScore: r }] *)
Definition with_relevanceScore (place : t) (r : Z) : t :=
  {| place_id := place_id place; name := name place;
     vicinity := vicinity place; types := types place;
     location := location place; rating := rating place;
     user_ratings_total := user_ratings_total place;
     price_level := price_level place;
     opening_hours := opening_hours place;
     distance := distance place; relevanceScore := Some r |}.

(** [place.opening_hours?.open_now] as a condition. *)
Definition is_open_now (place : t) : bool :=
  match opening_hours place with
  | Some h => match open_now h with Some b => b | None => false end
  | None => false
  end.

End Place.

(** A mood mapping: the value stored under each key of [moodMappings]. *)
Module Mood.

Record t : Type := {
  types : list string;
  keywords : list string;
  description : string;
  preferredPrice : option (list JS.number);
  prioritizeRating : bool
}.

Definition mk (ts ks : list string) (d : string) (ps : list JS.number)
    (r : bool) : t :=
  {| types := ts; keywords := ks; description := d;
     preferredPrice := Some ps; prioritizeRating := r |}.

End Mood.

(** ** utils/moodMapping.js *)

Local Open Scope Q_scope.

(** The object literal [moodMappings], in the order of its keys. *)
Definition moodMappings : list (string * Mood.t) :=
  let mk := Mood.mk in
  [
  ("work", mk ["cafe"; "library"]
     ["coworking"; "workspace"; "study cafe"; "wifi cafe"; "coffee shop work"]
     "Places to work or study" [1; 2] true);
  ("study", mk ["library"; "cafe"]
     ["study"; "quiet"; "library"; "reading room"]
     "Quiet places to focus" [0; 1] false);
  ("meeting", mk ["cafe"; "restaurant"]
     ["business"; "meeting"; "conference cafe"; "professional"]
     "Places for business meetings" [2; 3] true);
  ("date", mk ["restaurant"; "bar"; "cafe"]
     ["romantic"; "dinner"; "lounge"; "cocktail"; "candlelit"; "intimate"; "wine bar"; "rooftop"]
     "Romantic spots for dates" [2; 3; 4] true);
  ("drinks", mk ["bar"; "night_club"; "cafe"]
     ["pub"; "cocktail"; "wine bar"; "brewery"; "beer"; "happy hour"; "sports bar"]
     "Places for drinks" [2; 3] true);
  ("nightlife", mk ["night_club"; "bar"]
     ["club"; "dance"; "nightlife"; "dj"; "party"; "lounge"]
     "Night entertainment venues" [2; 3; 4] false);
  ("quick bite", mk ["restaurant"; "meal_takeaway"; "bakery"; "cafe"]
     ["fast food"; "quick"; "takeaway"; "grab and go"; "snack"; "sandwich"; "burger"; "pizza"]
     "Fast and convenient food" [1; 2] false);
  ("breakfast", mk ["cafe"; "bakery"; "restaurant"]
     ["breakfast"; "brunch"; "pancakes"; "eggs"; "morning"; "diner"]
     "Morning meals" [1; 2] true);
  ("brunch", mk ["restaurant"; "cafe"]
     ["brunch"; "breakfast"; "mimosa"; "sunday brunch"; "eggs benedict"]
     "Brunch spots" [2; 3] true);
  ("lunch", mk ["restaurant"; "cafe"; "meal_takeaway"]
     ["lunch"; "midday"; "lunch special"; "salad"; "soup"]
     "Lunch options" [1; 2; 3] true);
  ("dinner", mk ["restaurant"]
     ["dinner"; "fine dining"; "evening"; "gourmet"; "steakhouse"; "seafood"]
     "Dinner restaurants" [2; 3; 4] true);
  ("coffee", mk ["cafe"]
     ["coffee"; "espresso"; "latte"; "cappuccino"; "coffee shop"; "specialty coffee"; "barista"]
     "Coffee shops" [1; 2] true);
  ("dessert", mk ["bakery"; "cafe"]
     ["dessert"; "ice cream"; "cake"; "pastry"; "sweet"; "gelato"; "cupcake"; "chocolate"]
     "Sweet treats" [1; 2] true);
  ("budget", mk ["restaurant"; "cafe"; "meal_takeaway"]
     ["cheap"; "affordable"; "budget"; "value"; "deals"; "happy hour"; "lunch special"]
     "Budget-friendly options" [0; 1] false);
  ("fancy", mk ["restaurant"; "bar"]
     ["upscale"; "fine dining"; "luxury"; "gourmet"; "michelin"; "elegant"; "exclusive"]
     "Upscale experiences" [3; 4] true);
  ("chill", mk ["cafe"; "park"; "bar"]
     ["relax"; "chill"; "cozy"; "lounge"; "quiet"; "peaceful"; "laid back"]
     "Relaxed atmosphere" [1; 2] true);
  ("spa", mk ["spa"; "beauty_salon"]
     ["massage"; "wellness"; "relaxation"; "facial"; "sauna"; "day spa"]
     "Spa and wellness" [2; 3; 4] true);
  ("family", mk ["restaurant"; "park"; "amusement_park"; "zoo"; "aquarium"]
     ["family friendly"; "kids"; "children"; "family restaurant"; "playground"; "kid menu"]
     "Family-friendly places" [1; 2] true);
  ("kids", mk ["park"; "amusement_park"; "zoo"; "aquarium"]
     ["playground"; "kids"; "family"; "children"; "play area"; "arcade"]
     "Kid-friendly activities" [1; 2] true);
  ("outdoors", mk ["park"; "campground"; "natural_feature"]
     ["outdoor"; "nature"; "hiking"; "trail"; "garden"; "scenic"; "walking path"]
     "Outdoor activities" [0; 1] false);
  ("nature", mk ["park"; "campground"]
     ["nature"; "garden"; "botanical"; "wildlife"; "scenic"; "green space"]
     "Natural spaces" [0; 1] false);
  ("picnic", mk ["park"]
     ["picnic"; "garden"; "outdoor"; "lawn"; "green space"; "public park"]
     "Picnic spots" [0] false);
  ("fitness", mk ["gym"; "park"]
     ["fitness"; "workout"; "exercise"; "training"; "crossfit"; "gym near me"]
     "Fitness facilities" [1; 2; 3] true);
  ("gym", mk ["gym"]
     ["gym"; "fitness center"; "workout"; "health club"; "24 hour gym"]
     "Gyms and fitness centers" [1; 2; 3] true);
  ("yoga", mk ["gym"; "spa"]
     ["yoga"; "pilates"; "meditation"; "yoga studio"; "wellness"]
     "Yoga and wellness studios" [2; 3] true);
  ("entertainment", mk ["movie_theater"; "bowling_alley"; "amusement_park"; "casino"]
     ["entertainment"; "fun"; "games"; "arcade"; "bowling"; "escape room"; "karaoke"]
     "Entertainment venues" [2; 3] true);
  ("movies", mk ["movie_theater"]
     ["cinema"; "movie"; "film"; "theater"; "imax"; "movie theatre"]
     "Movie theaters" [2] true);
  ("culture", mk ["museum"; "art_gallery"; "library"]
     ["museum"; "art"; "culture"; "history"; "exhibition"; "gallery"]
     "Cultural attractions" [1; 2] true);
  ("art", mk ["art_gallery"; "museum"]
     ["art"; "gallery"; "exhibition"; "contemporary art"; "art museum"]
     "Art venues" [1; 2] true);
  ("music", mk ["bar"; "night_club"]
     ["live music"; "concert"; "jazz"; "music venue"; "live band"; "open mic"]
     "Live music venues" [2; 3] true);
  ("shopping", mk ["shopping_mall"; "department_store"; "clothing_store"]
     ["shopping"; "mall"; "retail"; "boutique"; "shopping center"; "stores"]
     "Shopping destinations" [1; 2; 3] false);
  ("groceries", mk ["supermarket"; "grocery_or_supermarket"]
     ["grocery"; "supermarket"; "food store"; "organic"; "market"]
     "Grocery stores" [1; 2] false);
  ("gas", mk ["gas_station"]
     ["gas"; "fuel"; "petrol"; "gas station"; "fuel station"]
     "Gas stations" [1] false);
  ("atm", mk ["atm"; "bank"]
     ["atm"; "bank"; "cash"; "withdrawal"]
     "ATMs and banks" [0] false);
  ("pharmacy", mk ["pharmacy"; "drugstore"]
     ["pharmacy"; "drugstore"; "medicine"; "prescription"]
     "Pharmacies" [1; 2] false)
  ].

Definition Object_keys (o : list (string * Mood.t)) : list string := map fst o.
Definition Object_values (o : list (string * Mood.t)) : list Mood.t := map snd o.
Definition Object_entries (o : list (string * Mood.t)) : list (string * Mood.t) := o.

(** What an expression over [moodMappings] evaluates to: one of the
    mappings, a member inherited from [Object.prototype], or [undefined]. *)
Inductive value : Type :=
  | Mapping (m : Mood.t)
  | PrototypeMember (name : string)
  | Undefined.

Definition is_truthy (v : value) : bool :=
  match v with
  | Undefined => false
  | _ => true
  end.

(** [v.types], when [v] has such a property. *)
Definition value_types (v : value) : option (list string) :=
  match v with
  | Mapping m => Some (Mood.types m)
  | _ => None
  end.

Fixpoint own_property (o : list (string * Mood.t)) (key : string) : option Mood.t :=
  match o with
  | [] => None
  | (k, m) :: o' => if String.eqb k key then Some m else own_property o' key
  end.

(** [moodMappings[key]]: an own property, else one found on the prototype
    chain of the object literal, else [undefined]. *)
Definition moodMappings_get (key : string) : value :=
  match own_property moodMappings key with
  | Some m => Mapping m
  | None =>
      if JS.includes_str JS.Object_prototype_names key
      then PrototypeMember key
      else Undefined
  end.

Definition getMoodMapping (mood : string) : value :=
  (* Normalize: lowercase, trim, and convert hyphens to spaces *)
  let normalizedMood := JS.replace_hyphens (JS.trim (JS.toLowerCase mood)) in
  (* Direct match *)
  if is_truthy (moodMappings_get normalizedMood) then
    moodMappings_get normalizedMood
  else
  (* Try with hyphens converted to spaces in keys too *)
  let normalizedKeys := map JS.replace_hyphens (Object_keys moodMappings) in
  match JS.indexOf normalizedKeys normalizedMood with
  | Some directIndex =>
      match nth_error (Object_values moodMappings) directIndex with
      | Some m => Mapping m
      | None => Undefined
      end
  | None =>
  (* Partial match *)
  let partialMatch :=
    List.find (fun key =>
      let normalizedKey := JS.replace_hyphens key in
      JS.includes normalizedKey normalizedMood
      || JS.includes normalizedMood normalizedKey)
      (Object_keys moodMappings) in
  match partialMatch with
  | Some (String c key') => moodMappings_get (String c key')
  | _ =>
  (* Keyword match *)
  match List.find (fun '(key, mapping) =>
          existsb (fun keyword =>
            JS.includes keyword normalizedMood
            || JS.includes normalizedMood keyword) (Mood.keywords mapping))
          (Object_entries moodMappings) with
  | Some (key, mapping) => Mapping mapping
  | None =>
  (* Default fallback - general search *)
  Mapping {| Mood.types := ["restaurant"; "cafe"];
             Mood.keywords := [normalizedMood];
             Mood.description := "General search";
             Mood.preferredPrice := Some [1; 2; 3];
             Mood.prioritizeRating := true |}
  end end end.

(** [calculateRelevanceScore] updates [score] block by block; each block
    below is one of them, as a function of the score it receives. *)

(** Type match bonus. *)
Definition score_types (place : Place.t) (moodMapping : Mood.t)
    (score : JS.number) : JS.number :=
  let placeTypes := default [] (Place.types place) in
  let matchingTypes :=
    List.filter (fun type => JS.includes_str (Mood.types moodMapping) type)
      placeTypes in
  if (0 <? length matchingTypes)%nat then
    let score :=
      match head (Mood.types moodMapping) with
      | Some primaryType =>
          if JS.includes_str placeTypes primaryType then score + 20 else score
      | None => score
      end in
    score + inject_Z (Z.of_nat (length matchingTypes)) * 10
  else score.

(** Price level match. *)
Definition score_price (place : Place.t) (moodMapping : Mood.t)
    (score : JS.number) : JS.number :=
  match Place.price_level place, Mood.preferredPrice moodMapping with
  | Some price_level, Some preferredPrice =>
      if JS.includes_num preferredPrice price_level
      then score + 12 else score - 5
  | _, _ => score
  end.

(** Rating bonus. *)
Definition score_rating (place : Place.t) (moodMapping : Mood.t)
    (score : JS.number) : JS.number :=
  match JS.truthy_field (Place.rating place) with
  | Some rating =>
      if Mood.prioritizeRating moodMapping then
        if JS.ge rating 4.5 then score + 20
        else if JS.ge rating 4.0 then score + 15
        else if JS.ge rating 3.5 then score + 10
        else score + 5
      else score + (rating / 5) * 10
  | None => score
  end.

(** User ratings count bonus. *)
Definition score_popularity (place : Place.t) (score : JS.number)
    : JS.number :=
  match JS.truthy_field (Place.user_ratings_total place) with
  | Some user_ratings_total =>
      if JS.ge user_ratings_total 500 then score + 12
      else if JS.ge user_ratings_total 100 then score + 8
      else if JS.ge user_ratings_total 50 then score + 5
      else score + 2
  | None => score
  end.

(** Open now bonus. *)
Definition score_open (place : Place.t) (score : JS.number) : JS.number :=
  if Place.is_open_now place then score + 8 else score.

(** Distance penalty for far places, bonus for very close ones. *)
Definition score_distance (place : Place.t) (score : JS.number) : JS.number :=
  match JS.truthy_field (Place.distance place) with
  | Some distance =>
      if JS.gt distance 3000 then score - 5
      else if JS.lt distance 500 then score + 5
      else score
  | None => score
  end.

(** The value of [score] when [calculateRelevanceScore] reaches its
    [return]. *)
Definition relevance (place : Place.t) (moodMapping : Mood.t) : JS.number :=
  let score : JS.number := 40 in
  let score := score_types place moodMapping score in
  let score := score_price place moodMapping score in
  let score := score_rating place moodMapping score in
  let score := score_popularity place score in
  let score := score_open place score in
  let score := score_distance place score in
  score.

Definition calculateRelevanceScore (place : Place.t) (moodMapping : Mood.t)
    : Z :=
  let score := relevance place moodMapping in
  (* Ensure score is within bounds *)
  Z.max 0 (Z.min (JS.Math_round score) 100).

(** A place with nothing but an id and a position. *)
Definition bare_place (id : string) : Place.t :=
  {| Place.place_id := id; Place.name := None; Place.vicinity := None;
     Place.types := None; Place.location := {| Place.lat := 0; Place.lng := 0 |};
     Place.rating := None; Place.user_ratings_total := None;
     Place.price_level := None; Place.opening_hours := None;
     Place.distance := None; Place.relevanceScore := None |}.

Definition with_types (place : Place.t) (ts : list string) : Place.t :=
  {| Place.place_id := Place.place_id place; Place.name := Place.name place;
     Place.vicinity := Place.vicinity place; Place.types := Some ts;
     Place.location := Place.location place; Place.rating := Place.rating place;
     Place.user_ratings_total := Place.user_ratings_total place;
     Place.price_level := Place.price_level place;
     Place.opening_hours := Place.opening_hours place;
     Place.distance := Place.distance place;
     Place.relevanceScore := Place.relevanceScore place |}.

Definition without_types (place : Place.t) : Place.t :=
  {| Place.place_id := Place.place_id place; Place.name := Place.name place;
     Place.vicinity := Place.vicinity place; Place.types := None;
     Place.location := Place.location place; Place.rating := Place.rating place;
     Place.user_ratings_total := Place.user_ratings_total place;
     Place.price_level := Place.price_level place;
     Place.opening_hours := Place.opening_hours place;
     Place.distance := Place.distance place;
     Place.relevanceScore := Place.relevanceScore place |}.

Definition coffee : Mood.t :=
  Mood.mk ["cafe"] ["coffee"; "espresso"; "latte"; "cappuccino"; "coffee shop";
                    "specialty coffee"; "barista"] "Coffee shops" [1; 2] true.

(** ** utils/constants.js *)

Module SORT_OPTIONS.
Definition NEAREST : string := "nearest".
Definition HIGHEST_RATED : string := "highest_rated".
Definition BEST_MATCH : string := "best_match".
Definition PRICE_LOW : string := "price_low".
Definition PRICE_HIGH : string := "price_high".
End SORT_OPTIONS.

Module SEARCH_RADIUS.
Definition NEAR : JS.number := 1000.
Definition DEFAULT : JS.number := 2000.
Definition FAR : JS.number := 5000.
Definition VERY_FAR : JS.number := 10000.
End SEARCH_RADIUS.

Module UI.
Definition MAX_RESULTS : nat := 20.
End UI.

(** The filter criteria object.  An absent field takes the default of the
    destructuring in [filterPlaces]; an absent [maxDistance] is [Infinity],
    an absent [priceLevel] or [types] is [null]. *)
Module Filters.

Inductive price : Type :=
  | PriceArray (levels : list JS.number)
  | PriceMax (level : JS.number).

Record t : Type := {
  minRating : option JS.number;
  maxDistance : option JS.number;
  openNow : option bool;
  priceLevel : option price;
  types : option (list string);
  searchQuery : option string
}.

End Filters.

Definition DEFAULT_FILTERS : Filters.t :=
  {| Filters.minRating := Some 0;
     Filters.maxDistance := Some SEARCH_RADIUS.FAR;
     Filters.openNow := Some false;
     Filters.priceLevel := None;
     Filters.types := None;
     Filters.searchQuery := None |}.

(** ** utils/filterSort.js *)

(** The callback of [places.filter] in [filterPlaces]. *)
Definition filterPlaces_keep (filters : Filters.t) (place : Place.t) : bool :=
  let minRating := default 0 (Filters.minRating filters) in
  let maxDistance := Filters.maxDistance filters in
  let openNow := default false (Filters.openNow filters) in
  let priceLevel := Filters.priceLevel filters in
  let types := Filters.types filters in
  let searchQuery := default "" (Filters.searchQuery filters) in
  (* Rating filter *)
  if match JS.truthy_field (Place.rating place) with
     | Some rating => JS.lt rating minRating
     | None => false
     end
  then false else
  (* Distance filter *)
  if match JS.truthy_field (Place.distance place), maxDistance with
     | Some distance, Some maxDistance => JS.gt distance maxDistance
     | _, _ => false
     end
  then false else
  (* Open now filter *)
  if openNow &&
     match Place.opening_hours place with
     | Some opening_hours => negb (default false (Place.open_now opening_hours))
     | None => false
     end
  then false else
  (* Price level filter *)
  if match priceLevel, Place.price_level place with
     | Some (Filters.PriceArray levels), Some price_level =>
         negb (JS.includes_num levels price_level)
     | Some (Filters.PriceMax level), Some price_level =>
         JS.gt price_level level
     | _, _ => false
     end
  then false else
  (* Type filter *)
  if match types with
     | Some (type :: types') =>
         let placeTypes := default [] (Place.types place) in
         negb (existsb (fun type => JS.includes_str placeTypes type)
                 (type :: types'))
     | _ => false
     end
  then false else
  (* Search query filter *)
  if match searchQuery with
     | EmptyString => false
     | _ =>
         let query := JS.toLowerCase searchQuery in
         let name := JS.toLowerCase (default "" (Place.name place)) in
         let vicinity := JS.toLowerCase (default "" (Place.vicinity place)) in
         negb (JS.includes name query) && negb (JS.includes vicinity query)
     end
  then false else
  true.

Definition filterPlaces (places : list Place.t) (filters : Filters.t)
    : list Place.t :=
  List.filter (filterPlaces_keep filters) places.

Definition calculatePlaceScore (place : Place.t) (moodMapping : option Mood.t)
    : JS.number :=
  let score : JS.number := 0 in
  (* Mood relevance *)
  let score :=
    match moodMapping with
    | Some moodMapping =>
        score + inject_Z (calculateRelevanceScore place moodMapping) * 0.3
    | None => score
    end in
  (* Rating component *)
  let score :=
    match JS.truthy_field (Place.rating place) with
    | Some rating => score + (rating / 5) * 25
    | None => score
    end in
  (* Popularity component *)
  let score :=
    match JS.truthy_field (Place.user_ratings_total place) with
    | Some user_ratings_total =>
        let popularityScore := JS.Math_min (user_ratings_total / 500) 1 * 15 in
        score + popularityScore
    | None => score
    end in
  (* Distance penalty *)
  let score :=
    match JS.truthy_field (Place.distance place) with
    | Some distance =>
        let distanceScore := JS.Math_max 0 (20 - distance / 500) in
        score + distanceScore
    | None => score
    end in
  (* Open now bonus *)
  let score := if Place.is_open_now place then score + 10 else score in
  score.

(** [x || 0] and [x ?? d] on an optional number. *)
Definition or_zero (x : option JS.number) : JS.number := default 0 x.
Definition nullish (x : option JS.number) (d : JS.number) : JS.number := default d x.

(** The comparator [sortPlaces] selects for [sortBy]. *)
Definition sortPlaces_compare (sortBy : string) (moodMapping : option Mood.t)
    (a b : Place.t) : JS.number :=
  if String.eqb sortBy SORT_OPTIONS.NEAREST then
    or_zero (Place.distance a) - or_zero (Place.distance b)
  else if String.eqb sortBy SORT_OPTIONS.HIGHEST_RATED then
    let ratingDiff := or_zero (Place.rating b) - or_zero (Place.rating a) in
    if negb (Qeq_bool ratingDiff 0) then ratingDiff
    else or_zero (Place.user_ratings_total b)
         - or_zero (Place.user_ratings_total a)
  else if String.eqb sortBy SORT_OPTIONS.PRICE_LOW then
    let priceA := nullish (Place.price_level a) 5 in
    let priceB := nullish (Place.price_level b) 5 in
    priceA - priceB
  else if String.eqb sortBy SORT_OPTIONS.PRICE_HIGH then
    let priceA := nullish (Place.price_level a) (-1) in
    let priceB := nullish (Place.price_level b) (-1) in
    priceB - priceA
  else
    (* BEST_MATCH and default *)
    let scoreA := calculatePlaceScore a moodMapping in
    let scoreB := calculatePlaceScore b moodMapping in
    scoreB - scoreA.

Definition sortPlaces (places : list Place.t) (sortBy : string)
    (moodMapping : option Mood.t) : list Place.t :=
  let sortedPlaces := places in
  JS.sort (sortPlaces_compare sortBy moodMapping) sortedPlaces.

Definition filterAndSortPlaces (places : list Place.t) (filters : Filters.t)
    (sortBy : string) (moodMapping : option Mood.t) : list Place.t :=
  let filtered := filterPlaces places filters in
  sortPlaces filtered sortBy moodMapping.

Definition with_rating (place : Place.t) (r : JS.number) : Place.t :=
  {| Place.place_id := Place.place_id place; Place.name := Place.name place;
     Place.vicinity := Place.vicinity place; Place.types := Place.types place;
     Place.location := Place.location place; Place.rating := Some r;
     Place.user_ratings_total := Place.user_ratings_total place;
     Place.price_level := Place.price_level place;
     Place.opening_hours := Place.opening_hours place;
     Place.distance := Place.distance place;
     Place.relevanceScore := Place.relevanceScore place |}.

Definition only_minRating (r : JS.number) : Filters.t :=
  {| Filters.minRating := Some r; Filters.maxDistance := None;
     Filters.openNow := None; Filters.priceLevel := None;
     Filters.types := None; Filters.searchQuery := None |}.

(** ** services/placesApi.js *)

(** The Places SDK as the service functions see it: the status and results
    handed to the callback of each request. *)
Module PlacesService.

Inductive Status : Type :=
  | OK
  | ZERO_RESULTS
  | Failure (status : string).

Definition status_text (s : Status) : string :=
  match s with
  | OK => "OK"
  | ZERO_RESULTS => "ZERO_RESULTS"
  | Failure status => status
  end.

Record NearbyRequest : Type := {
  nr_location : Place.LatLng;
  nr_radius : JS.number;
  nr_type : option string;
  nr_keyword : option string
}.

Record TextRequest : Type := {
  tr_query : string;
  tr_location : Place.LatLng;
  tr_radius : JS.number
}.

Record t : Type := {
  nearbySearch : NearbyRequest -> list Place.t * Status;
  textSearch : TextRequest -> list Place.t * Status
}.

End PlacesService.

(** A JavaScript [Map] keyed by strings, in insertion order. *)
Module JSMap.

Definition t (V : Type) : Type := list (string * V).

Definition has {V : Type} (m : t V) (k : string) : bool :=
  existsb (fun kv => String.eqb (fst kv) k) m.

Fixpoint set {V : Type} (m : t V) (k : string) (v : V) : t V :=
  match m with
  | [] => [(k, v)]
  | (k', v') :: m' =>
      if String.eqb k' k then (k', v) :: m' else (k', v') :: set m' k v
  end.

Definition values {V : Type} (m : t V) : list V := map snd m.

End JSMap.

Definition CACHE_DURATION : Z := (5 * 60 * 1000)%Z.

Record CacheEntry : Type := { data : Place.t; timestamp : Z }.

Section PlacesApi.

(** [calculateDistance] (utils/distance.js) is the haversine formula over
    floating-point trigonometry; the functions below only store what it
    returns. *)
Variable calculateDistance : Place.LatLng -> Place.LatLng -> JS.number.

(** Whether [loadGoogleMapsApi] has completed: [getGoogleMapsApi] throws
    when it has not. *)
Variable googleInstance : bool.

Definition not_loaded : string :=
  "Google Maps API not loaded. Call loadGoogleMapsApi() first.".

Definition searchNearbyPlaces (service : PlacesService.t)
    (location : Place.LatLng) (radius : JS.number) (type : option string)
    (types : list string) (keyword : option string)
    : JS.promise (list Place.t) :=
  if negb googleInstance then JS.Rejected not_loaded else
  let request :=
    {| PlacesService.nr_location := location;
       PlacesService.nr_radius := radius;
       PlacesService.nr_type :=
         match type with
         | Some (String c type') => Some (String c type')
         | _ => head types
         end;
       PlacesService.nr_keyword :=
         match keyword with
         | Some (String c keyword') => Some (String c keyword')
         | _ => None
         end |} in
  match PlacesService.nearbySearch service request with
  | (results, PlacesService.OK) =>
      let placesWithDistance :=
        map (fun place =>
               Place.with_distance place
                 (calculateDistance location (Place.location place)))
            results in
      JS.Fulfilled placesWithDistance
  | (_, PlacesService.ZERO_RESULTS) => JS.Fulfilled []
  | (_, status) =>
      JS.Rejected ("Places search failed: " ++ PlacesService.status_text status)
  end.

Definition textSearchPlaces (service : PlacesService.t) (query : string)
    (location : Place.LatLng) (radius : JS.number)
    : JS.promise (list Place.t) :=
  if negb googleInstance then JS.Rejected not_loaded else
  let request :=
    {| PlacesService.tr_query := query;
       PlacesService.tr_location := location;
       PlacesService.tr_radius := radius |} in
  match PlacesService.textSearch service request with
  | (results, PlacesService.OK) =>
      let placesWithDistance :=
        map (fun place =>
               Place.with_distance place
                 (calculateDistance location (Place.location place)))
            results in
      JS.Fulfilled placesWithDistance
  | (_, PlacesService.ZERO_RESULTS) => JS.Fulfilled []
  | (_, status) =>
      JS.Rejected ("Text search failed: " ++ PlacesService.status_text status)
  end.

(** The body of the [forEach] that fills [allResults]. *)
Definition collect (allResults : JSMap.t Place.t) (place : Place.t)
    : JSMap.t Place.t :=
  if negb (JSMap.has allResults (Place.place_id place))
  then JSMap.set allResults (Place.place_id place) place
  else allResults.

(** Combine and deduplicate the fulfilled sub-query results. *)
Definition combine (results : list (list Place.t)) : list Place.t :=
  let allResults : JSMap.t Place.t := [] in
  let allResults := fold_left collect (concat results) allResults in
  JSMap.values allResults.

(** [searchMultipleTypes] is an async function: what it throws rejects the
    promise it returns.  [options.types] is destructured without a default,
    so it may be undefined ([None]), and [types.map] then throws before any
    request is made; [options.keywords] defaults to the empty array. *)
Definition searchMultipleTypes (service : PlacesService.t)
    (types keywords : option (list string)) (location : Place.LatLng)
    (radius : JS.number) : JS.promise (list Place.t) :=
  let keywords := default [] keywords in
  match types with
  | None => JS.Rejected "TypeError: Cannot read properties of undefined"
  | Some types =>
      (* Search by types *)
      let typePromises :=
        map (fun type =>
               JS.catch (searchNearbyPlaces service location radius (Some type)
                           [] None)
                        (fun err => []))
            types in
      (* Search by keywords *)
      let keywordPromises :=
        map (fun keyword =>
               JS.catch (textSearchPlaces service keyword location radius)
                        (fun err => []))
            keywords in
      match JS.Promise_all (typePromises ++ keywordPromises) with
      | JS.Rejected err => JS.Rejected err
      | JS.Fulfilled results => JS.Fulfilled (combine results)
      end
  end.

(** [getPlaceDetails] up to the point where it either resolves from the
    cache or hands a request to the provider. *)
Inductive details_call : Type :=
  | FromCache (data : Place.t)
  | NotLoaded
  | ProviderRequest (placeId : string).

Definition getPlaceDetails (detailsCache : gmap string CacheEntry)
    (now : Z) (placeId : string) : details_call :=
  match detailsCache !! placeId with
  | Some cached =>
      if (now - timestamp cached <? CACHE_DURATION)%Z
      then FromCache (data cached)
      else if negb googleInstance then NotLoaded else ProviderRequest placeId
  | None => if negb googleInstance then NotLoaded else ProviderRequest placeId
  end.

(** The callback [getPlaceDetails] passes to [service.getDetails]: the new
    cache and the settlement of the promise. *)
Definition getDetails_callback (detailsCache : gmap string CacheEntry)
    (now : Z) (placeId : string) (result : Place.t)
    (status : PlacesService.Status)
    : gmap string CacheEntry * JS.promise Place.t :=
  match status with
  | PlacesService.OK =>
      (<[placeId := {| data := result; timestamp := now |}]> detailsCache,
       JS.Fulfilled result)
  | _ =>
      (detailsCache,
       JS.Rejected ("Place details request failed: "
                    ++ PlacesService.status_text status))
  end.

Definition clearDetailsCache (detailsCache : gmap string CacheEntry)
    : gmap string CacheEntry := ∅.

(** What happens to the module over time: calls of [getPlaceDetails],
    provider callbacks, and calls of [clearDetailsCache]. *)
Inductive cache_event : Type :=
  | Call (now : Z) (placeId : string)
  | Callback (now : Z) (placeId : string) (result : Place.t)
      (status : PlacesService.Status)
  | Clear.

(** The state of the module: the cache and the provider requests issued so
    far, latest first. *)
Definition cache_step (st : gmap string CacheEntry * list string)
    (e : cache_event) : gmap string CacheEntry * list string :=
  match e with
  | Call now placeId =>
      match getPlaceDetails (fst st) now placeId with
      | ProviderRequest id => (fst st, id :: snd st)
      | _ => st
      end
  | Callback now placeId result status =>
      (fst (getDetails_callback (fst st) now placeId result status), snd st)
  | Clear => (clearDetailsCache (fst st), snd st)
  end.

Definition cache_run (st : gmap string CacheEntry * list string)
    (es : list cache_event) : gmap string CacheEntry * list string :=
  fold_left cache_step es st.

Definition event_time_from (t : Z) (e : cache_event) : Prop :=
  match e with
  | Call now _ => (t <= now)%Z
  | Callback now _ _ _ => (t <= now)%Z
  | Clear => True
  end.

Definition is_clear (e : cache_event) : bool :=
  match e with
  | Clear => true
  | _ => false
  end.

End PlacesApi.

(** ** hooks/usePlaces.js: [searchByMood] *)

Module UsePlaces.

(** One invocation of [searchByMood] that got past the location check: its
    abort object ([currentSearch]), whether it is suspended at the [await],
    and the variables its continuation closes over. *)
Record Search : Type := {
  abort : bool;
  awaiting : bool;
  moodMapping : value;
  filters : Filters.t;
  sortBy : string
}.

Definition set_abort (s : Search) : Search :=
  {| abort := true; awaiting := awaiting s; moodMapping := moodMapping s;
     filters := filters s; sortBy := sortBy s |}.

Definition set_resumed (s : Search) : Search :=
  {| abort := abort s; awaiting := false; moodMapping := moodMapping s;
     filters := filters s; sortBy := sortBy s |}.

(** The state of the hook.  [searches] holds the invocations by the address
    of their abort object; [searchAbortRef] is the address
    [searchAbortRef.current] points to. *)
Record State : Type := {
  places : list Place.t;
  filteredPlaces : list Place.t;
  loading : bool;
  error : option string;
  currentMood : option string;
  currentMoodMapping : option value;
  searchAbortRef : option nat;
  searches : list Search
}.

Definition initial : State :=
  {| places := []; filteredPlaces := []; loading := false; error := None;
     currentMood := None; currentMoodMapping := None;
     searchAbortRef := None; searches := [] |}.

Definition with_searches (st : State) (ss : list Search) : State :=
  {| places := places st; filteredPlaces := filteredPlaces st;
     loading := loading st; error := error st;
     currentMood := currentMood st;
     currentMoodMapping := currentMoodMapping st;
     searchAbortRef := searchAbortRef st; searches := ss |}.

(** The [catch] and [finally] blocks of [searchByMood] for a search that
    is not aborted. *)
Definition fail (st : State) (err : string) : State :=
  {| places := []; filteredPlaces := []; loading := false; error := Some err;
     currentMood := currentMood st;
     currentMoodMapping := currentMoodMapping st;
     searchAbortRef := searchAbortRef st; searches := searches st |}.

(** [searchByMood] from its call to the [await]: [location] is the search
    origin if there is one, [service] tells whether [initService] returned
    a service, [filters0] and [sortBy0] are the values the callback was
    created with. *)
Definition searchByMood_call (mood : string) (location : option Place.LatLng)
    (service : bool) (filters0 : Filters.t) (sortBy0 : string) (st : State)
    : State :=
  match location with
  | None =>
      {| places := places st; filteredPlaces := filteredPlaces st;
         loading := loading st;
         error := Some "Location is required for search";
         currentMood := currentMood st;
         currentMoodMapping := currentMoodMapping st;
         searchAbortRef := searchAbortRef st; searches := searches st |}
  | Some _ =>
      (* Cancel any ongoing search *)
      let searches1 :=
        match searchAbortRef st with
        | Some r => alter set_abort r (searches st)
        | None => searches st
        end in
      let currentSearch := length searches1 in
      let st1 (mm : option value) (s : Search) : State :=
        {| places := places st; filteredPlaces := filteredPlaces st;
           loading := true; error := None; currentMood := Some mood;
           currentMoodMapping := mm;
           searchAbortRef := Some currentSearch;
           searches := (searches1 ++ [s])%list |} in
      if negb service then
        fail (st1 (currentMoodMapping st)
                {| abort := false; awaiting := false;
                   moodMapping := Undefined;
                   filters := filters0; sortBy := sortBy0 |})
             "Places service not initialized"
      else
        let moodMapping := getMoodMapping mood in
        st1 (Some moodMapping)
            {| abort := false; awaiting := true; moodMapping := moodMapping;
               filters := filters0; sortBy := sortBy0 |}
  end.

(** What [searchMultipleTypes] settles with for the resolved mood: it
    evaluates [types.map] first, which throws when the mood value has no
    [types]. *)
Definition search_outcome (mm : value)
    (provider : JS.promise (list Place.t)) : JS.promise (list Place.t) :=
  match mm with
  | Mapping _ => provider
  | _ => JS.Rejected "TypeError: Cannot read properties of undefined"
  end.

(** [searchByMood] from the [await] on: invocation [k] receives the
    settlement of [searchMultipleTypes]. *)
Definition searchByMood_resume (k : nat)
    (provider : JS.promise (list Place.t)) (st : State) : State :=
  match searches st !! k with
  | None => st
  | Some currentSearch =>
      if negb (awaiting currentSearch) then st else
      let st := with_searches st (alter set_resumed k (searches st)) in
      match search_outcome (moodMapping currentSearch) provider,
            moodMapping currentSearch with
      | JS.Fulfilled results, Mapping moodMapping =>
          (* Check if search was aborted *)
          if abort currentSearch then st else
          let placesWithScores :=
            map (fun place =>
                   Place.with_relevanceScore place
                     (calculateRelevanceScore place moodMapping))
                results in
          let limitedResults := take UI.MAX_RESULTS placesWithScores in
          let processed :=
            filterAndSortPlaces limitedResults (filters currentSearch)
              (sortBy currentSearch) (Some moodMapping) in
          {| places := limitedResults; filteredPlaces := processed;
             loading := false; error := error st;
             currentMood := currentMood st;
             currentMoodMapping := currentMoodMapping st;
             searchAbortRef := searchAbortRef st; searches := searches st |}
      | JS.Fulfilled _, _ => st
      | JS.Rejected err, _ =>
          if abort currentSearch then st else fail st err
      end
  end.

Inductive event : Type :=
  | Search_call (mood : string) (location : option Place.LatLng)
      (service : bool) (filters0 : Filters.t) (sortBy0 : string)
  | Settle (k : nat) (provider : JS.promise (list Place.t)).

Definition step (st : State) (e : event) : State :=
  match e with
  | Search_call mood location service filters0 sortBy0 =>
      searchByMood_call mood location service filters0 sortBy0 st
  | Settle k provider => searchByMood_resume k provider st
  end.

Definition run_from (st : State) (es : list event) : State :=
  fold_left step es st.

Definition run (es : list event) : State := run_from initial es.

(** What the hook publishes as search results. *)
Definition published (st : State)
    : list Place.t * list Place.t * option string * bool :=
  (places st, filteredPlaces st, error st, loading st).

End UsePlaces.

(** The composite best-match score in the words of the specification:
    each component counts whenever its field is present. *)
Definition composite_score_spec (place : Place.t)
    (moodMapping : option Mood.t) : JS.number :=
  match moodMapping with
  | Some m => 0.3 * inject_Z (calculateRelevanceScore place m)
  | None => 0
  end
  + match Place.rating place with
    | Some rating => 25 * (rating / 5)
    | None => 0
    end
  + match Place.user_ratings_total place with
    | Some ratingCount => JS.Math_min (ratingCount / 500) 1 * 15
    | None => 0
    end
  + match Place.distance place with
    | Some distance => JS.Math_max 0 (20 - distance / 500)
    | None => 0
    end
  + (if Place.is_open_now place then 10 else 0).

(** What a sub-query contributes once its [catch] handler has run. *)
Definition value_or_empty (p : JS.promise (list Place.t)) : list Place.t :=
  match p with
  | JS.Fulfilled v => v
  | JS.Rejected _ => []
  end.


(** A provider that answers every request with an error status. *)
Definition failing_service : PlacesService.t :=
  {| PlacesService.nearbySearch :=
       fun _ => ([], PlacesService.Failure "UNKNOWN_ERROR");
     PlacesService.textSearch :=
       fun _ => ([], PlacesService.Failure "UNKNOWN_ERROR") |}.

Definition flat_distance (a b : Place.LatLng) : JS.number := 0.

Definition origin : Place.LatLng := {| Place.lat := 0; Place.lng := 0 |}.



(** A provider callback that stores a record for [id]. *)
Definition is_success_for (id : string) (e : cache_event) : bool :=
  match e with
  | Callback _ placeId _ PlacesService.OK => String.eqb placeId id
  | _ => false
  end.

(** What a successful lookup of [id] at time [t1] establishes, and what
    later events other than [clearDetailsCache] keep: the cache holds a
    record for [id] stored at [t1] or later; it is [result] as long as
    [fresh] holds. *)
Definition cached_since (t1 : Z) (id : string) (result : Place.t)
    (fresh : bool) (st : gmap string CacheEntry * list string) : Prop :=
  exists entry, fst st !! id = Some entry /\ (t1 <= timestamp entry)%Z /\
                (fresh = true -> data entry = result).

(** Every invocation of [searchByMood] other than the one
    [searchAbortRef.current] points to has its abort flag set. *)
Definition others_aborted (st : UsePlaces.State) : Prop :=
  forall k s, UsePlaces.searches st !! k = Some s ->
              UsePlaces.searchAbortRef st <> Some k ->
              UsePlaces.abort s = true.

Definition place_a : Place.t := with_types (bare_place "a") ["cafe"].
Definition place_b : Place.t := with_types (bare_place "b") ["bar"].

(** [{ ...filters, minRating: r }] *)
Definition set_minRating (filters : Filters.t) (r : JS.number) : Filters.t :=
  {| Filters.minRating := Some r;
     Filters.maxDistance := Filters.maxDistance filters;
     Filters.openNow := Filters.openNow filters;
     Filters.priceLevel := Filters.priceLevel filters;
     Filters.types := Filters.types filters;
     Filters.searchQuery := Filters.searchQuery filters |}.

(** The place of the scoring example: a cafe rated 4.6 by 600 users, open,
    200 m away. *)
Definition busy_cafe : Place.t :=
  {| Place.place_id := "c1"; Place.name := Some "Cafe"; Place.vicinity := None;
     Place.types := Some ["cafe"];
     Place.location := {| Place.lat := 0; Place.lng := 0 |};
     Place.rating := Some 4.6; Place.user_ratings_total := Some 600;
     Place.price_level := None;
     Place.opening_hours := Some {| Place.open_now := Some true |};
     Place.distance := Some 200; Place.relevanceScore := None |}.

Definition with_price (place : Place.t) (x : JS.number) : Place.t :=
  {| Place.place_id := Place.place_id place; Place.name := Place.name place;
     Place.vicinity := Place.vicinity place; Place.types := Place.types place;
     Place.location := Place.location place; Place.rating := Place.rating place;
     Place.user_ratings_total := Place.user_ratings_total place;
     Place.price_level := Some x;
     Place.opening_hours := Place.opening_hours place;
     Place.distance := Place.distance place;
     Place.relevanceScore := Place.relevanceScore place |}.

(** The order of [highest_rated]: by rating, then by number of ratings,
    both descending, a missing value counting as 0. *)
Definition rated_before (a b : Place.t) : Prop :=
  or_zero (Place.rating b) < or_zero (Place.rating a) \/
  (or_zero (Place.rating a) == or_zero (Place.rating b) /\
   or_zero (Place.user_ratings_total b) <= or_zero (Place.user_ratings_total a)).

(** A provider that knows cafes only: the nearby search for any other
    type is denied. *)
Definition cafe_service : PlacesService.t :=
  {| PlacesService.nearbySearch := fun request =>
       match PlacesService.nr_type request with
       | Some type =>
           if String.eqb type "cafe"
           then ([place_a; place_b], PlacesService.OK)
           else ([], PlacesService.Failure "REQUEST_DENIED")
       | None => ([], PlacesService.Failure "REQUEST_DENIED")
       end;
     PlacesService.textSearch := fun _ => ([place_b], PlacesService.OK) |}.

(** ** utils/filterSort.js: [getUniqueCategories], [groupByCategory] *)

(** A JavaScript [Set] of strings, in insertion order. *)
Module JSSet.

Definition add (s : list string) (x : string) : list string :=
  if JS.includes_str s x then s else (s ++ [x])%list.

End JSSet.

Definition getUniqueCategories (places : list Place.t) : list string :=
  let categories : list string := [] in
  let categories :=
    fold_left (fun categories place =>
                 match Place.types place with
                 | Some types => fold_left JSSet.add types categories
                 | None => categories
                 end)
              places categories in
  categories.

(** [place.types?.[0] || 'other'] *)
Definition primaryType (place : Place.t) : string :=
  match Place.types place with
  | Some (String c type :: _) => String c type
  | _ => "other"
  end.

(** The body of the [forEach] of [groupByCategory] on the object [groups].
    Reading [groups[primaryType]] finds an own property or else a member
    inherited from [Object.prototype]; the latter is truthy and has no
    [push], so the call throws ([None]). *)
Definition group_place (groups : option (gmap string (list Place.t)))
    (place : Place.t) : option (gmap string (list Place.t)) :=
  match groups with
  | None => None
  | Some groups =>
      let primaryType := primaryType place in
      match groups !! primaryType with
      | Some group => Some (<[primaryType := (group ++ [place])%list]> groups)
      | None =>
          if JS.includes_str JS.Object_prototype_names primaryType
          then None
          else Some (<[primaryType := [place]]> groups)
      end
  end.

Definition groupByCategory (places : list Place.t)
    : option (gmap string (list Place.t)) :=
  fold_left group_place places (Some ∅).

(** ** utils/distance.js: [getBoundsForPlaces] *)

Record Bounds : Type := {
  north : JS.number; south : JS.number; east : JS.number; west : JS.number
}.

(** [location.lat() || location.lat || place.lat] on a provider place: a
    coordinate of 0 is falsy, so the expression yields the method
    [location.lat] itself, which compares false with every number
    ([None]). *)
Definition coordinate (x : JS.number) : option JS.number :=
  if JS.truthy x then Some x else None.

Definition extend_bounds (b : JS.number * JS.number * JS.number * JS.number)
    (place : Place.t) : JS.number * JS.number * JS.number * JS.number :=
  let '(north, south, east, west) := b in
  let lat := coordinate (Place.lat (Place.location place)) in
  let lng := coordinate (Place.lng (Place.location place)) in
  let north :=
    match lat with
    | Some lat => if JS.gt lat north then lat else north
    | None => north
    end in
  let south :=
    match lat with
    | Some lat => if JS.lt lat south then lat else south
    | None => south
    end in
  let east :=
    match lng with
    | Some lng => if JS.gt lng east then lng else east
    | None => east
    end in
  let west :=
    match lng with
    | Some lng => if JS.lt lng west then lng else west
    | None => west
    end in
  (north, south, east, west).

Definition getBoundsForPlaces (places : list Place.t) (center : Place.LatLng)
    : option Bounds :=
  match places with
  | [] => None
  | _ =>
      let '(north, south, east, west) :=
        fold_left extend_bounds places
          (Place.lat center, Place.lat center,
           Place.lng center, Place.lng center) in
      (* Add padding *)
      let latPadding := (north - south) * 0.1 in
      let lngPadding := (east - west) * 0.1 in
      Some {| north := north + latPadding; south := south - latPadding;
              east := east + lngPadding; west := west - lngPadding |}
  end.

Definition at_position (id : string) (lat lng : JS.number) : Place.t :=
  {| Place.place_id := id; Place.name := None; Place.vicinity := None;
     Place.types := None;
     Place.location := {| Place.lat := lat; Place.lng := lng |};
     Place.rating := None; Place.user_ratings_total := None;
     Place.price_level := None; Place.opening_hours := None;
     Place.distance := None; Place.relevanceScore := None |}.

(** The places of a list whose primary type is [key], if there are any. *)
Definition places_of_type (places : list Place.t) (key : string)
    : option (list Place.t) :=
  match List.filter (fun place => String.eqb (primaryType place) key) places with
  | [] => None
  | group => Some group
  end.

(** One box of north, south, east and west limits lies within another. *)
Definition box_grows (b b' : Q * Q * Q * Q) : Prop :=
  let '(n, s, e, w) := b in
  let '(n', s', e', w') := b' in
  n <= n' /\ s' <= s /\ e <= e' /\ w' <= w.

(** A box holds the position of a place, as far as its coordinates are not
    zero. *)
Definition box_holds (b : Q * Q * Q * Q) (place : Place.t) : Prop :=
  let '(n, s, e, w) := b in
  (~ Place.lat (Place.location place) == 0 ->
   s <= Place.lat (Place.location place) <= n) /\
  (~ Place.lng (Place.location place) == 0 ->
   w <= Place.lng (Place.location place) <= e).

(** ** utils/moodMapping.js: [getMoodSuggestions] *)

(** A suggestion: [{ value: key, ...mapping, matchType }]; the popular
    moods carry no [matchType]. *)
Module Suggestion.

Record t : Type := {
  value : string;
  mapping : option Mood.t;
  matchType : option string
}.

End Suggestion.

(** The body of the loop over [Object.entries(moodMappings)]. *)
Definition suggest (normalizedInput : string) (suggestions : list Suggestion.t)
    (entry : string * Mood.t) : list Suggestion.t :=
  let '(key, mapping) := entry in
  (* Match by key *)
  if JS.includes key normalizedInput then
    (suggestions ++ [ {| Suggestion.value := key; Suggestion.mapping := Some mapping;
                         Suggestion.matchType := Some "name" |} ])%list
  (* Match by keywords *)
  else if existsb (fun kw => JS.includes kw normalizedInput)
            (Mood.keywords mapping) then
    (suggestions ++ [ {| Suggestion.value := key; Suggestion.mapping := Some mapping;
                         Suggestion.matchType := Some "keyword" |} ])%list
  else suggestions.

(** The comparator handed to [sort]: it looks at its first argument only
    and never returns 0. *)
Definition by_matchType (a b : Suggestion.t) : JS.number :=
  match Suggestion.matchType a with
  | Some t => if String.eqb t "name" then -1 else 1
  | None => 1
  end.

(** [Array_sort] stands for the [sort] of the engine: the comparator is
    not consistent, so ECMAScript leaves the order it produces to the
    implementation. *)
Definition getMoodSuggestions
    (Array_sort : (Suggestion.t -> Suggestion.t -> JS.number) ->
                  list Suggestion.t -> list Suggestion.t)
    (input : string) : list Suggestion.t :=
  let normalizedInput := JS.trim (JS.toLowerCase input) in
  match normalizedInput with
  | EmptyString =>
      (* Return popular moods when no input *)
      map (fun key => {| Suggestion.value := key;
                         Suggestion.mapping := own_property moodMappings key;
                         Suggestion.matchType := None |})
          ["work"; "date"; "quick bite"; "coffee"; "chill"; "family"]
  | _ =>
      let suggestions :=
        fold_left (suggest normalizedInput) (Object_entries moodMappings) [] in
      take 6 (Array_sort by_matchType suggestions)
  end.

(** What one entry of the table adds to the suggestions. *)
Definition suggest_entry (normalizedInput : string) (entry : string * Mood.t)
    : list Suggestion.t :=
  suggest normalizedInput [] entry.

(** ** hooks/usePlaces.js: [searchByType], [clearResults] *)

Module Hook.

(** An invocation of [searchByType] suspended at its [await], with the
    variables its continuation closes over. *)
Record TypeSearch : Type := {
  awaiting : bool;
  filters : Filters.t;
  sortBy : string
}.

Definition set_resumed (s : TypeSearch) : TypeSearch :=
  {| awaiting := false; filters := filters s; sortBy := sortBy s |}.

(** The state of the hook with both kinds of search. *)
Record State : Type := {
  base : UsePlaces.State;
  typeSearches : list TypeSearch
}.

Definition initial : State :=
  {| base := UsePlaces.initial; typeSearches := [] |}.

(** [searchByType] from its call to the [await]. *)
Definition searchByType_call (location : option Place.LatLng)
    (service : bool) (filters0 : Filters.t) (sortBy0 : string) (st : State)
    : State :=
  let b := base st in
  match location with
  | None =>
      {| base :=
           {| UsePlaces.places := UsePlaces.places b;
              UsePlaces.filteredPlaces := UsePlaces.filteredPlaces b;
              UsePlaces.loading := UsePlaces.loading b;
              UsePlaces.error := Some "Location is required for search";
              UsePlaces.currentMood := UsePlaces.currentMood b;
              UsePlaces.currentMoodMapping := UsePlaces.currentMoodMapping b;
              UsePlaces.searchAbortRef := UsePlaces.searchAbortRef b;
              UsePlaces.searches := UsePlaces.searches b |};
         typeSearches := typeSearches st |}
  | Some _ =>
      let b1 :=
        {| UsePlaces.places := UsePlaces.places b;
           UsePlaces.filteredPlaces := UsePlaces.filteredPlaces b;
           UsePlaces.loading := true;
           UsePlaces.error := None;
           UsePlaces.currentMood := None;
           UsePlaces.currentMoodMapping := None;
           UsePlaces.searchAbortRef := UsePlaces.searchAbortRef b;
           UsePlaces.searches := UsePlaces.searches b |} in
      if negb service then
        {| base := UsePlaces.fail b1 "Places service not initialized";
           typeSearches := typeSearches st |}
      else
        {| base := b1;
           typeSearches :=
             (typeSearches st
              ++ [ {| awaiting := true; filters := filters0;
                      sortBy := sortBy0 |} ])%list |}
  end.

(** [searchByType] from the [await] on: invocation [j] receives the
    settlement of [searchNearbyPlaces]. *)
Definition searchByType_resume (j : nat)
    (provider : JS.promise (list Place.t)) (st : State) : State :=
  match typeSearches st !! j with
  | None => st
  | Some search =>
      if negb (awaiting search) then st else
      let b := base st in
      let typeSearches1 := alter set_resumed j (typeSearches st) in
      match provider with
      | JS.Fulfilled results =>
          let limitedResults := take UI.MAX_RESULTS results in
          let processed :=
            filterAndSortPlaces limitedResults (filters search)
              (sortBy search) None in
          {| base :=
               {| UsePlaces.places := limitedResults;
                  UsePlaces.filteredPlaces := processed;
                  UsePlaces.loading := false;
                  UsePlaces.error := UsePlaces.error b;
                  UsePlaces.currentMood := UsePlaces.currentMood b;
                  UsePlaces.currentMoodMapping :=
                    UsePlaces.currentMoodMapping b;
                  UsePlaces.searchAbortRef := UsePlaces.searchAbortRef b;
                  UsePlaces.searches := UsePlaces.searches b |};
             typeSearches := typeSearches1 |}
      | JS.Rejected err =>
          {| base := UsePlaces.fail b err; typeSearches := typeSearches1 |}
      end
  end.

Definition clearResults (st : State) : State :=
  let b := base st in
  {| base :=
       {| UsePlaces.places := [];
          UsePlaces.filteredPlaces := [];
          UsePlaces.loading := UsePlaces.loading b;
          UsePlaces.error := None;
          UsePlaces.currentMood := None;
          UsePlaces.currentMoodMapping := None;
          UsePlaces.searchAbortRef := UsePlaces.searchAbortRef b;
          UsePlaces.searches := UsePlaces.searches b |};
     typeSearches := typeSearches st |}.

Inductive event : Type :=
  | Mood (e : UsePlaces.event)
  | Type_call (location : option Place.LatLng) (service : bool)
      (filters0 : Filters.t) (sortBy0 : string)
  | Type_settle (j : nat) (provider : JS.promise (list Place.t))
  | Clear_results.

Definition step (st : State) (e : event) : State :=
  match e with
  | Mood e =>
      {| base := UsePlaces.step (base st) e; typeSearches := typeSearches st |}
  | Type_call location service filters0 sortBy0 =>
      searchByType_call location service filters0 sortBy0 st
  | Type_settle j provider => searchByType_resume j provider st
  | Clear_results => clearResults st
  end.

Definition run_from (st : State) (es : list event) : State :=
  fold_left step es st.

Definition run (es : list event) : State := run_from initial es.

Definition is_mood (e : event) : bool :=
  match e with
  | Mood _ => true
  | _ => false
  end.

End Hook.

(** The invocation [searchAbortRef.current] points to exists and is not
    aborted. *)
Definition current_live (st : UsePlaces.State) : Prop :=
  forall k, UsePlaces.searchAbortRef st = Some k ->
            exists s, UsePlaces.searches st !! k = Some s /\
                      UsePlaces.abort s = false.

(** The published lists are in step: at most [MAX_RESULTS] places, and the
    filtered places are among them. *)
Definition lists_in_step (st : UsePlaces.State) : Prop :=
  (length (UsePlaces.places st) <= UI.MAX_RESULTS)%nat /\
  (length (UsePlaces.filteredPlaces st) <= length (UsePlaces.places st))%nat /\
  forall place, In place (UsePlaces.filteredPlaces st) ->
                In place (UsePlaces.places st).

Definition with_hours (place : Place.t) (open_now : option bool) : Place.t :=
  {| Place.place_id := Place.place_id place; Place.name := Place.name place;
     Place.vicinity := Place.vicinity place; Place.types := Place.types place;
     Place.location := Place.location place; Place.rating := Place.rating place;
     Place.user_ratings_total := Place.user_ratings_total place;
     Place.price_level := Place.price_level place;
     Place.opening_hours := Some {| Place.open_now := open_now |};
     Place.distance := Place.distance place;
     Place.relevanceScore := Place.relevanceScore place |}.

(** [{ ...filters, openNow: b }] *)
Definition set_openNow (filters : Filters.t) (b : bool) : Filters.t :=
  {| Filters.minRating := Filters.minRating filters;
     Filters.maxDistance := Filters.maxDistance filters;
     Filters.openNow := Some b;
     Filters.priceLevel := Filters.priceLevel filters;
     Filters.types := Filters.types filters;
     Filters.searchQuery := Filters.searchQuery filters |}.

(** * Properties *)

(** ** Auxiliary facts about the primitives *)

Lemma includes_str_In (l : list string) (s : string) :
  JS.includes_str l s = true <-> In s l.
Proof.
  unfold JS.includes_str. rewrite existsb_exists. split.
  - intros (x & Hx & He). apply String.eqb_eq in He. now subst.
  - intros H. exists s. split; [exact H | apply String.eqb_refl].
Qed.

Lemma filter_nil_iff {A : Type} (f : A -> bool) (l : list A) :
  List.filter f l = [] <-> (forall x, In x l -> f x = false).
Proof.
  induction l as [|a l IH]; simpl.
  - split; [intros _ x [] | reflexivity].
  - destruct (f a) eqn:E.
    + split; [discriminate |]. intros H. specialize (H a (or_introl eq_refl)).
      congruence.
    + rewrite IH. split.
      * intros H x [<- | Hx]; [exact E | now apply H].
      * intros H x Hx. apply H. now right.
Qed.

(** ** The relevance score *)

(** Every block after the type block shifts the score it receives by an
    amount that does not depend on that score. *)
Lemma score_price_shift place mm s :
  score_price place mm s == s + score_price place mm 0.
Proof.
  unfold score_price.
  destruct (Place.price_level place), (Mood.preferredPrice mm);
    try destruct (JS.includes_num _ _); ring.
Qed.

Lemma score_rating_shift place mm s :
  score_rating place mm s == s + score_rating place mm 0.
Proof.
  unfold score_rating.
  destruct (JS.truthy_field (Place.rating place)); [| ring].
  destruct (Mood.prioritizeRating mm); [| ring].
  repeat (match goal with |- context [if ?b then _ else _] => destruct b end);
    ring.
Qed.

Lemma score_popularity_shift place s :
  score_popularity place s == s + score_popularity place 0.
Proof.
  unfold score_popularity.
  destruct (JS.truthy_field (Place.user_ratings_total place)); [| ring].
  repeat (match goal with |- context [if ?b then _ else _] => destruct b end);
    ring.
Qed.

Lemma score_open_shift place s :
  score_open place s == s + score_open place 0.
Proof. unfold score_open. destruct (Place.is_open_now place); ring. Qed.

Lemma score_distance_shift place s :
  score_distance place s == s + score_distance place 0.
Proof.
  unfold score_distance.
  destruct (JS.truthy_field (Place.distance place)); [| ring].
  repeat (match goal with |- context [if ?b then _ else _] => destruct b end);
    ring.
Qed.

(** The score before rounding and clamping is the score of the type block
    plus the shifts of the other blocks. *)
Lemma relevance_sum place mm :
  relevance place mm ==
  score_types place mm 40 + score_price place mm 0 + score_rating place mm 0
  + score_popularity place 0 + score_open place 0 + score_distance place 0.
Proof.
  unfold relevance.
  rewrite score_distance_shift, score_open_shift, score_popularity_shift,
    score_rating_shift, score_price_shift.
  reflexivity.
Qed.

Lemma no_overlap_no_match (placeTypes moodTypes : list string) :
  (forall type, In type placeTypes -> ~ In type moodTypes) ->
  List.filter (fun type => JS.includes_str moodTypes type) placeTypes = [].
Proof.
  intros H. apply filter_nil_iff. intros x Hx.
  destruct (JS.includes_str moodTypes x) eqn:E; [| reflexivity].
  apply includes_str_In in E. now destruct (H x Hx).
Qed.

(** C1.  [calculateRelevanceScore] returns an integer between 0 and 100 for
    every place and mood mapping; for a place without price level, rating,
    rating count, open-now flag and distance whose types share nothing with
    the mapping's types, it returns the base score 40. *)
Theorem calculateRelevanceScore_range_and_base (place : Place.t) (mm : Mood.t) :
  (0 <= calculateRelevanceScore place mm <= 100)%Z /\
  (Place.price_level place = None ->
   Place.rating place = None ->
   Place.user_ratings_total place = None ->
   Place.is_open_now place = false ->
   Place.distance place = None ->
   (forall type, In type (default [] (Place.types place)) ->
                 ~ In type (Mood.types mm)) ->
   calculateRelevanceScore place mm = 40%Z).
Proof.
  split.
  - unfold calculateRelevanceScore. lia.
  - intros Hp Hr Hc Ho Hd Hty.
    unfold calculateRelevanceScore, relevance, score_distance, score_open,
      score_popularity, score_rating, score_price, score_types.
    rewrite Hp, Hr, Hc, Ho, Hd, (no_overlap_no_match _ _ Hty). reflexivity.
Qed.

Lemma calculateRelevanceScore_range_and_base_witness :
  (0 <= calculateRelevanceScore (bare_place "p1") coffee <= 100)%Z /\
  calculateRelevanceScore (bare_place "p1") coffee = 40%Z.
Proof.
  split.
  - apply (calculateRelevanceScore_range_and_base (bare_place "p1") coffee).
  - apply (calculateRelevanceScore_range_and_base (bare_place "p1") coffee);
      try reflexivity.
    intros type [].
Defined.

(** The scoring example of the specification: the blocks add up to more
    than 100 and the result is clamped. *)
Example calculateRelevanceScore_clamped :
  relevance busy_cafe coffee == 115 /\
  calculateRelevanceScore busy_cafe coffee = 100%Z.
Proof. split; reflexivity. Qed.

(** The type block by itself: 10 for every type of the place found among
    the mapping's types, and 20 more when the primary type is among the
    place's types. *)
Lemma score_types_value place mm s :
  let placeTypes := default [] (Place.types place) in
  let matchingTypes :=
    List.filter (fun type => JS.includes_str (Mood.types mm) type) placeTypes in
  let primary :=
    match head (Mood.types mm) with
    | Some primaryType => JS.includes_str placeTypes primaryType
    | None => false
    end in
  score_types place mm s ==
  s + (if primary then 20 else 0)
    + 10 * inject_Z (Z.of_nat (length matchingTypes)).
Proof.
  intros placeTypes matchingTypes primary. unfold score_types.
  fold placeTypes. fold matchingTypes.
  destruct (0 <? length matchingTypes)%nat eqn:E.
  - subst primary. destruct (head (Mood.types mm)) as [p|];
      [destruct (JS.includes_str placeTypes p) |]; ring.
  - apply Nat.ltb_ge in E.
    assert (Hm : matchingTypes = []) by (destruct matchingTypes; [easy | simpl in E; lia]).
    assert (Hp : primary = false).
    { subst primary. destruct (Mood.types mm) as [|p ts] eqn:Et; [reflexivity |].
      simpl. destruct (JS.includes_str placeTypes p) eqn:Ep; [| reflexivity].
      apply includes_str_In in Ep.
      assert (Hf : JS.includes_str (p :: ts) p = false).
      { apply (proj1 (filter_nil_iff _ placeTypes) Hm p Ep). }
      unfold JS.includes_str in Hf. simpl in Hf.
      rewrite String.eqb_refl in Hf. discriminate. }
    rewrite Hm, Hp. simpl. ring.
Qed.

(** C2 (as the code has it).  In [calculateRelevanceScore] the type block
    adds 10 for every type of the place that is among the mapping's types
    and a further 20 when the place's types contain the primary type: the
    score before rounding and clamping exceeds that of the same place
    without types by exactly that amount.  So a place matching the primary
    type alone gains 30, and one matching the primary type and one secondary
    type gains 40. *)
Theorem type_match_adjustment (place : Place.t) (mm : Mood.t) :
  let placeTypes := default [] (Place.types place) in
  let matchingTypes :=
    List.filter (fun type => JS.includes_str (Mood.types mm) type) placeTypes in
  let primary :=
    match head (Mood.types mm) with
    | Some primaryType => JS.includes_str placeTypes primaryType
    | None => false
    end in
  relevance place mm ==
    relevance (without_types place) mm
    + (if primary then 20 else 0)
    + 10 * inject_Z (Z.of_nat (length matchingTypes))
  /\ (forall p, head (Mood.types mm) = Some p -> placeTypes = [p] ->
        relevance place mm == relevance (without_types place) mm + 30)
  /\ (forall p q, head (Mood.types mm) = Some p -> q <> p ->
        In q (Mood.types mm) -> placeTypes = [p; q] ->
        relevance place mm == relevance (without_types place) mm + 40).
Proof.
  intros placeTypes matchingTypes primary.
  assert (Hgen : relevance place mm ==
    relevance (without_types place) mm + (if primary then 20 else 0)
    + 10 * inject_Z (Z.of_nat (length matchingTypes))).
  { rewrite (relevance_sum place), (relevance_sum (without_types place)).
    rewrite (score_types_value place mm 40).
    rewrite (score_types_value (without_types place) mm 40).
    fold placeTypes. fold matchingTypes. fold primary.
    change (default [] (Place.types (without_types place))) with (@nil string).
    replace (match head (Mood.types mm) with
             | Some primaryType => JS.includes_str [] primaryType
             | None => false
             end) with false by (destruct (head (Mood.types mm)); reflexivity).
    change (score_price (without_types place) mm 0) with (score_price place mm 0).
    change (score_rating (without_types place) mm 0) with (score_rating place mm 0).
    change (score_popularity (without_types place) 0) with (score_popularity place 0).
    change (score_open (without_types place) 0) with (score_open place 0).
    change (score_distance (without_types place) 0) with (score_distance place 0).
    simpl. ring. }
  split; [exact Hgen |].
  assert (Hin : forall q, In q (Mood.types mm) ->
                 existsb (String.eqb q) (Mood.types mm) = true).
  { intros q Hq. now apply (includes_str_In (Mood.types mm) q). }
  assert (Hhd : forall p, head (Mood.types mm) = Some p -> In p (Mood.types mm)).
  { intros p Hp. destruct (Mood.types mm); [discriminate |].
    injection Hp as ->. now left. }
  split.
  - intros p Hp Hty. rewrite Hgen. subst primary matchingTypes.
    rewrite Hp, Hty. unfold JS.includes_str. simpl.
    rewrite String.eqb_refl, (Hin p (Hhd p Hp)). simpl. ring.
  - intros p q Hp Hne Hq Hty. rewrite Hgen. subst primary matchingTypes.
    rewrite Hp, Hty. unfold JS.includes_str. simpl.
    rewrite String.eqb_refl, (Hin p (Hhd p Hp)), (Hin q Hq). simpl. ring.
Qed.

Lemma type_match_adjustment_witness :
  relevance (with_types (bare_place "p1") ["cafe"]) coffee == 70 /\
  relevance (with_types (bare_place "p1") ["cafe"; "bar"])
            (Mood.mk ["cafe"; "bar"] [] "" [] true) == 80.
Proof.
  split.
  - rewrite (proj1 (proj2 (type_match_adjustment
               (with_types (bare_place "p1") ["cafe"]) coffee)) "cafe");
      reflexivity.
  - rewrite (proj2 (proj2 (type_match_adjustment
               (with_types (bare_place "p1") ["cafe"; "bar"])
               (Mood.mk ["cafe"; "bar"] [] "" [] true))) "cafe" "bar");
      try reflexivity; [discriminate | simpl; tauto].
Defined.

(** C2 as stated fails: a place whose only type is the primary type of the
    coffee mapping scores 70, a gain of 30 over the base 40, not of 20. *)
Lemma primary_alone_gains_30_not_20 :
  calculateRelevanceScore (with_types (bare_place "p1") ["cafe"]) coffee = 70%Z
  /\ calculateRelevanceScore (bare_place "p1") coffee = 40%Z
  /\ ~ (relevance (with_types (bare_place "p1") ["cafe"]) coffee
        == relevance (bare_place "p1") coffee + 20).
Proof.
  split; [reflexivity |]. split; [reflexivity |]. intros H. vm_compute in H.
  discriminate.
Qed.

(** ** Mood resolution *)

Lemma own_property_In (o : list (string * Mood.t)) key m :
  own_property o key = Some m -> In m (Object_values o).
Proof.
  induction o as [|[k v] o IH]; simpl; [discriminate |].
  destruct (String.eqb k key).
  - intros [= ->]. now left.
  - intros H. right. now apply IH.
Qed.

Lemma moodMappings_types_nonempty m :
  In m (Object_values moodMappings) -> (1 <= length (Mood.types m))%nat.
Proof.
  assert (H : forallb (fun m => (1 <=? length (Mood.types m))%nat)
                (Object_values moodMappings) = true) by (vm_compute; reflexivity).
  rewrite forallb_forall in H. intros Hin. apply Nat.leb_le. now apply H.
Qed.

Lemma moodMappings_get_Mapping key m :
  moodMappings_get key = Mapping m -> In m (Object_values moodMappings).
Proof.
  unfold moodMappings_get.
  destruct (own_property moodMappings key) as [m'|] eqn:E.
  - intros [= <-]. eapply own_property_In, E.
  - destruct (JS.includes_str _ _); discriminate.
Qed.

(** Whenever [getMoodMapping] returns one of the mappings, the table's or
    the fallback, that mapping has at least one type. *)
Lemma getMoodMapping_Mapping_types mood m :
  getMoodMapping mood = Mapping m -> (1 <= length (Mood.types m))%nat.
Proof.
  unfold getMoodMapping.
  set (nm := JS.replace_hyphens (JS.trim (JS.toLowerCase mood))).
  destruct (is_truthy (moodMappings_get nm)).
  { intros H. eapply moodMappings_types_nonempty, moodMappings_get_Mapping, H. }
  destruct (JS.indexOf _ nm) as [i|].
  { destruct (nth_error (Object_values moodMappings) i) as [m'|] eqn:E;
      [| discriminate].
    intros [= <-]. eapply moodMappings_types_nonempty, nth_error_In, E. }
  destruct (List.find _ (Object_keys moodMappings)) as [[|c key]|].
  2:{ intros H. eapply moodMappings_types_nonempty, moodMappings_get_Mapping, H. }
  all: destruct (List.find _ (Object_entries moodMappings)) as [[k m']|] eqn:E.
  all: intros [= <-]; try (simpl; lia).
  all: apply find_some in E; destruct E as [E _].
  all: apply moodMappings_types_nonempty; unfold Object_values.
  all: apply (in_map snd) in E; exact E.
Qed.

(** The last case of [getMoodMapping]: with no direct, partial or keyword
    match the result is the general-search mapping built from the
    normalized input. *)
Lemma getMoodMapping_fallback mood :
  let normalizedMood := JS.replace_hyphens (JS.trim (JS.toLowerCase mood)) in
  moodMappings_get normalizedMood = Undefined ->
  JS.indexOf (map JS.replace_hyphens (Object_keys moodMappings))
             normalizedMood = None ->
  List.find (fun key =>
      JS.includes (JS.replace_hyphens key) normalizedMood
      || JS.includes normalizedMood (JS.replace_hyphens key))
    (Object_keys moodMappings) = None ->
  List.find (fun '(key, mapping) =>
      existsb (fun keyword =>
        JS.includes keyword normalizedMood
        || JS.includes normalizedMood keyword) (Mood.keywords mapping))
    (Object_entries moodMappings) = None ->
  getMoodMapping mood =
  Mapping {| Mood.types := ["restaurant"; "cafe"];
             Mood.keywords := [normalizedMood];
             Mood.description := "General search";
             Mood.preferredPrice := Some [1; 2; 3];
             Mood.prioritizeRating := true |}.
Proof.
  intros nm Hget Hidx Hpart Hkw. unfold getMoodMapping. fold nm.
  rewrite Hget. simpl is_truthy. cbv iota. rewrite Hidx.
  cbv zeta. rewrite Hpart, Hkw. reflexivity.
Qed.

Example getMoodMapping_fallback_example :
  getMoodMapping "Zzz-Q " =
  Mapping {| Mood.types := ["restaurant"; "cafe"];
             Mood.keywords := ["zzz q"];
             Mood.description := "General search";
             Mood.preferredPrice := Some [1; 2; 3];
             Mood.prioritizeRating := true |}.
Proof. vm_compute. reflexivity. Qed.

(** C8 at the input ["constructor"].  The direct lookup
    [moodMappings[normalizedMood]] finds the member every object literal
    inherits under that name; it is truthy, so [getMoodMapping] returns it,
    and it has no [types]. *)
Theorem getMoodMapping_constructor :
  getMoodMapping "constructor" = PrototypeMember "constructor" /\
  value_types (getMoodMapping "constructor") = None /\
  own_property moodMappings "constructor" = None.
Proof. vm_compute. repeat split. Qed.

(** ** Filtering *)

Lemma truthy_true_iff (x : Q) : JS.truthy x = true <-> ~ x == 0.
Proof.
  unfold JS.truthy. rewrite negb_true_iff. split.
  - intros H E. apply Qeq_bool_iff in E. congruence.
  - intros H. destruct (Qeq_bool x 0) eqn:E; [| reflexivity].
    apply Qeq_bool_iff in E. contradiction.
Qed.

Lemma lt_true_iff (x y : Q) : JS.lt x y = true <-> x < y.
Proof.
  unfold JS.lt. rewrite negb_true_iff. split.
  - intros H. apply Qnot_le_lt. intros Hle. apply Qle_bool_iff in Hle. congruence.
  - intros H. destruct (Qle_bool y x) eqn:E; [| reflexivity].
    apply Qle_bool_iff in E. exfalso. exact (Qlt_not_le _ _ H E).
Qed.

Lemma truthy_field_Some (o : option Q) (x : Q) :
  JS.truthy_field o = Some x <-> o = Some x /\ ~ x == 0.
Proof.
  unfold JS.truthy_field. destruct o as [y|].
  - destruct (JS.truthy y) eqn:E.
    + apply truthy_true_iff in E. split.
      * intros [= ->]. now split.
      * now intros [H _].
    + split; [discriminate |]. intros [[= ->] H].
      apply truthy_true_iff in H. congruence.
  - split; [discriminate | now intros [H _]].
Qed.

Lemma truthy_field_None (o : option Q) :
  JS.truthy_field o = None <-> o = None \/ exists x, o = Some x /\ x == 0.
Proof.
  unfold JS.truthy_field. destruct o as [y|].
  - destruct (JS.truthy y) eqn:E.
    + apply truthy_true_iff in E. split; [discriminate |].
      intros [H | (x & [= ->] & Hx)]; [discriminate | contradiction].
    + unfold JS.truthy in E. apply negb_false_iff, Qeq_bool_iff in E.
      split; [| reflexivity]. intros _. right. now exists y.
  - split; [now left | reflexivity].
Qed.

(** With only [minRating] set, a place is kept exactly when the rating
    test of [filterPlaces] does not fire. *)
Lemma keep_only_minRating (r : Q) (place : Place.t) :
  filterPlaces_keep (only_minRating r) place =
  negb match JS.truthy_field (Place.rating place) with
       | Some rating => JS.lt rating r
       | None => false
       end.
Proof.
  unfold filterPlaces_keep, only_minRating. simpl.
  destruct (JS.truthy_field (Place.rating place)) as [x|].
  - destruct (JS.lt x r); [reflexivity |].
    destruct (JS.truthy_field (Place.distance place)); reflexivity.
  - destruct (JS.truthy_field (Place.distance place)); reflexivity.
Qed.

(** C5 (as the code has it).  The rating filter of [filterPlaces] excludes
    a place exactly when its rating is present, not zero, and strictly below
    [minRating]: such a place is excluded whatever the other criteria are,
    and with no other criterion set the places kept are exactly the others.
    A place without rating, or with rating 0, is never excluded by it.
    Filtering ratings 3.0, 4.5 and undefined by [minRating] 4.0 keeps the
    places rated 4.5 and undefined. *)
Theorem rating_filter :
  (forall (filters : Filters.t) (place : Place.t) (x : Q),
      Place.rating place = Some x -> ~ x == 0 ->
      x < default 0 (Filters.minRating filters) ->
      filterPlaces_keep filters place = false)
  /\ (forall (filters : Filters.t) (r : Q) (place : Place.t),
      Place.rating place = None \/
      (exists x, Place.rating place = Some x /\ x == 0) ->
      filterPlaces_keep (set_minRating filters r) place
      = filterPlaces_keep filters place)
  /\ (forall (r : Q) (places : list Place.t) (place : Place.t),
      In place (filterPlaces places (only_minRating r)) <->
      In place places /\
      ~ (exists x, Place.rating place = Some x /\ ~ x == 0 /\ x < r))
  /\ filterPlaces [with_rating (bare_place "a") 3.0;
                   with_rating (bare_place "b") 4.5;
                   bare_place "c"] (only_minRating 4.0)
     = [with_rating (bare_place "b") 4.5; bare_place "c"].
Proof.
  split; [| split; [| split]].
  - intros filters place x Hx Hnz Hlt. unfold filterPlaces_keep.
    rewrite (proj2 (truthy_field_Some (Place.rating place) x) (conj Hx Hnz)).
    now rewrite (proj2 (lt_true_iff _ _) Hlt).
  - intros filters r place H. apply truthy_field_None in H.
    unfold filterPlaces_keep. rewrite H. reflexivity.
  - intros r places place. unfold filterPlaces. rewrite filter_In.
    rewrite keep_only_minRating, negb_true_iff.
    split; intros [Hin H]; (split; [exact Hin |]).
    + intros (x & Hx & Hnz & Hlt).
      rewrite (proj2 (truthy_field_Some _ x) (conj Hx Hnz)) in H.
      rewrite (proj2 (lt_true_iff _ _) Hlt) in H. discriminate.
    + destruct (JS.truthy_field (Place.rating place)) as [x|] eqn:E;
        [| reflexivity].
      destruct (JS.lt x r) eqn:El; [| reflexivity].
      exfalso. apply H. exists x. apply truthy_field_Some in E.
      destruct E as [E Hnz]. apply lt_true_iff in El. now repeat split.
  - vm_compute. reflexivity.
Qed.

Lemma rating_filter_witness :
  filterPlaces_keep (only_minRating 4.0) (with_rating (bare_place "a") 3.0)
  = false /\
  filterPlaces_keep (set_minRating DEFAULT_FILTERS 4.0) (bare_place "c")
  = filterPlaces_keep DEFAULT_FILTERS (bare_place "c").
Proof.
  split.
  - apply (proj1 rating_filter (only_minRating 4.0)
             (with_rating (bare_place "a") 3.0) 3.0).
    + reflexivity.
    + intros H; vm_compute in H; discriminate.
    + reflexivity.
  - apply (proj1 (proj2 rating_filter) DEFAULT_FILTERS 4.0 (bare_place "c")).
    left. reflexivity.
Defined.

(** C5 as stated fails at a present rating of 0: with [minRating] 4 the
    place is kept, although its rating is present and below 4. *)
Lemma rating_zero_not_excluded :
  Place.rating (with_rating (bare_place "z") 0) = Some 0 /\
  0 < 4 /\
  filterPlaces [with_rating (bare_place "z") 0] (only_minRating 4)
  = [with_rating (bare_place "z") 0].
Proof. repeat split. Qed.

(** ** Sorting *)

Section SortFacts.
Context {A : Type} (cmp : A -> A -> Q).

(** The comparator never claims that each of two elements belongs after
    the other. *)
Hypothesis cmp_asym :
  forall a b, JS.gt (cmp a b) 0 = true -> JS.in_order cmp b a.

Lemma sort_insert_perm (x : A) (l : list A) :
  Permutation (x :: l) (JS.sort_insert cmp x l).
Proof.
  induction l as [|y l IH]; simpl; [reflexivity |].
  destruct (JS.gt (cmp x y) 0); [| reflexivity].
  rewrite perm_swap. now apply perm_skip.
Qed.

Lemma sort_perm (l : list A) : Permutation l (JS.sort cmp l).
Proof.
  induction l as [|x l IH]; simpl; [reflexivity |].
  rewrite <- sort_insert_perm. now apply perm_skip.
Qed.

Lemma sort_insert_sorted (x : A) (l : list A) :
  Sorted (JS.in_order cmp) l -> Sorted (JS.in_order cmp) (JS.sort_insert cmp x l).
Proof.
  induction l as [|y l IH]; simpl; intros Hs.
  - repeat constructor.
  - destruct (JS.gt (cmp x y) 0) eqn:E.
    + apply Sorted_inv in Hs. destruct Hs as [Hs Hhd].
      constructor; [now apply IH |].
      destruct l as [|z l]; simpl.
      * constructor. now apply cmp_asym.
      * destruct (JS.gt (cmp x z) 0).
        -- constructor. now inversion Hhd.
        -- constructor. now apply cmp_asym.
    + constructor; [exact Hs |]. constructor. exact E.
Qed.

Lemma sort_sorted (l : list A) : Sorted (JS.in_order cmp) (JS.sort cmp l).
Proof.
  induction l as [|x l IH]; simpl; [constructor | now apply sort_insert_sorted].
Qed.

(** Sorting an array that is in order returns it unchanged. *)
Lemma sort_of_sorted (l : list A) : Sorted (JS.in_order cmp) l -> JS.sort cmp l = l.
Proof.
  induction l as [|x l IH]; simpl; intros Hs; [reflexivity |].
  apply Sorted_inv in Hs. destruct Hs as [Hs Hhd].
  rewrite (IH Hs). destruct l as [|y l]; simpl; [reflexivity |].
  inversion Hhd as [|? ? Hxy]; subst. unfold JS.in_order in Hxy. now rewrite Hxy.
Qed.

Lemma sort_idempotent (l : list A) :
  JS.sort cmp (JS.sort cmp l) = JS.sort cmp l.
Proof. apply sort_of_sorted, sort_sorted. Qed.

End SortFacts.

Lemma gt_zero_iff (x : Q) : JS.gt x 0 = true <-> 0 < x.
Proof. unfold JS.gt. apply lt_true_iff. Qed.

Lemma gt_zero_false_iff (x : Q) : JS.gt x 0 = false <-> x <= 0.
Proof.
  unfold JS.gt, JS.lt. rewrite negb_false_iff. apply Qle_bool_iff.
Qed.

(** Every comparator of [sortPlaces] is consistent in the sense the sort
    needs. *)
Lemma sortPlaces_compare_asym sortBy mm a b :
  JS.gt (sortPlaces_compare sortBy mm a b) 0 = true ->
  JS.gt (sortPlaces_compare sortBy mm b a) 0 = false.
Proof.
  rewrite gt_zero_iff, gt_zero_false_iff. unfold sortPlaces_compare.
  destruct (String.eqb sortBy SORT_OPTIONS.NEAREST); [lra |].
  destruct (String.eqb sortBy SORT_OPTIONS.HIGHEST_RATED).
  { set (ra := or_zero (Place.rating a)). set (rb := or_zero (Place.rating b)).
    destruct (Qeq_bool (rb - ra) 0) eqn:E1, (Qeq_bool (ra - rb) 0) eqn:E2;
      simpl; try lra.
    - apply Qeq_bool_iff in E1. apply Qeq_bool_neq in E2. lra.
    - apply Qeq_bool_iff in E2. apply Qeq_bool_neq in E1. lra. }
  destruct (String.eqb sortBy SORT_OPTIONS.PRICE_LOW); [lra |].
  destruct (String.eqb sortBy SORT_OPTIONS.PRICE_HIGH); [lra |].
  lra.
Qed.

Lemma filter_all_true {A : Type} (f : A -> bool) (l : list A) :
  (forall x, In x l -> f x = true) -> List.filter f l = l.
Proof.
  induction l as [|a l IH]; simpl; intros H; [reflexivity |].
  rewrite (H a (or_introl eq_refl)). f_equal. apply IH. intros x Hx.
  apply H. now right.
Qed.

(** The output of [sortPlaces] is the input rearranged, with every element
    in order before its successor. *)
Lemma sortPlaces_sorted places sortBy mm :
  Permutation places (sortPlaces places sortBy mm) /\
  Sorted (fun a b => sortPlaces_compare sortBy mm a b <= 0)
         (sortPlaces places sortBy mm).
Proof.
  unfold sortPlaces. split; [apply sort_perm |].
  assert (Hs := sort_sorted (sortPlaces_compare sortBy mm)
                  (sortPlaces_compare_asym sortBy mm) places).
  induction Hs as [|a l Hs IH Hhd]; constructor; [exact IH |].
  destruct Hhd as [|b l Hab]; constructor.
  apply gt_zero_false_iff. exact Hab.
Qed.

(** C9.  [filterAndSortPlaces] applied to its own output, with the same
    criteria, sort option and mood mapping, returns that output. *)
Theorem filterAndSortPlaces_idempotent
    (places : list Place.t) (filters : Filters.t) (sortBy : string)
    (moodMapping : option Mood.t) :
  filterAndSortPlaces
    (filterAndSortPlaces places filters sortBy moodMapping)
    filters sortBy moodMapping
  = filterAndSortPlaces places filters sortBy moodMapping.
Proof.
  unfold filterAndSortPlaces, sortPlaces.
  set (cmp := sortPlaces_compare sortBy moodMapping).
  set (out := JS.sort cmp (filterPlaces places filters)).
  assert (Hkeep : filterPlaces out filters = out).
  { unfold filterPlaces. apply filter_all_true. intros x Hx.
    apply (Permutation_in x (Permutation_sym (sort_perm cmp _))) in Hx.
    unfold filterPlaces in Hx. apply filter_In in Hx. tauto. }
  rewrite Hkeep. apply sort_idempotent.
  intros a b. apply sortPlaces_compare_asym.
Qed.

(** ** The best-match score *)

(** Where the distance of a place is absent or not zero,
    [calculatePlaceScore] is the composite score of the specification. *)
Lemma calculatePlaceScore_spec (place : Place.t) (mm : option Mood.t) :
  (forall d, Place.distance place = Some d -> ~ d == 0) ->
  calculatePlaceScore place mm == composite_score_spec place mm.
Proof.
  intros Hd. unfold calculatePlaceScore, composite_score_spec.
  set (rel := match mm with
              | Some m => 0.3 * inject_Z (calculateRelevanceScore place m)
              | None => 0
              end).
  assert (Hrel : match mm with
                 | Some m => 0 + inject_Z (calculateRelevanceScore place m) * 0.3
                 | None => 0
                 end == rel) by (subst rel; destruct mm; ring).
  revert Hrel. generalize rel. clear rel. intros rel.
  generalize (match mm with
              | Some m => 0 + inject_Z (calculateRelevanceScore place m) * 0.3
              | None => 0
              end). intros s0 Hs0.
  assert (Hr : match JS.truthy_field (Place.rating place) with
               | Some rating => s0 + rating / 5 * 25
               | None => s0
               end ==
               rel + match Place.rating place with
                     | Some rating => 25 * (rating / 5)
                     | None => 0
                     end).
  { destruct (JS.truthy_field (Place.rating place)) as [r|] eqn:E.
    - apply truthy_field_Some in E. destruct E as [-> _]. rewrite Hs0. ring.
    - apply truthy_field_None in E. destruct E as [-> | (x & -> & Hx)].
      + rewrite Hs0. ring.
      + rewrite Hs0, Hx. field. }
  revert Hr.
  generalize (match JS.truthy_field (Place.rating place) with
              | Some rating => s0 + rating / 5 * 25
              | None => s0
              end). intros s1 Hs1.
  assert (Hc : match JS.truthy_field (Place.user_ratings_total place) with
               | Some c => s1 + JS.Math_min (c / 500) 1 * 15
               | None => s1
               end ==
               s1 + match Place.user_ratings_total place with
                    | Some c => JS.Math_min (c / 500) 1 * 15
                    | None => 0
                    end).
  { destruct (JS.truthy_field (Place.user_ratings_total place)) as [c|] eqn:E.
    - apply truthy_field_Some in E. destruct E as [-> _]. reflexivity.
    - apply truthy_field_None in E. destruct E as [-> | (x & -> & Hx)].
      + ring.
      + unfold JS.Math_min. destruct (Qle_bool (x / 500) 1) eqn:El.
        * rewrite Hx. field.
        * exfalso. assert (Hle : x / 500 <= 1) by (rewrite Hx; discriminate).
          apply Qle_bool_iff in Hle. congruence. }
  revert Hc.
  generalize (match JS.truthy_field (Place.user_ratings_total place) with
              | Some c => s1 + JS.Math_min (c / 500) 1 * 15
              | None => s1
              end). intros s2 Hs2.
  assert (Hdist : match JS.truthy_field (Place.distance place) with
               | Some d => s2 + JS.Math_max 0 (20 - d / 500)
               | None => s2
               end ==
               s2 + match Place.distance place with
                    | Some d => JS.Math_max 0 (20 - d / 500)
                    | None => 0
                    end).
  { destruct (JS.truthy_field (Place.distance place)) as [d|] eqn:E.
    - apply truthy_field_Some in E. destruct E as [-> _]. reflexivity.
    - apply truthy_field_None in E. destruct E as [-> | (x & Hx & Hz)].
      + ring.
      + destruct (Hd x Hx Hz). }
  revert Hdist.
  generalize (match JS.truthy_field (Place.distance place) with
              | Some d => s2 + JS.Math_max 0 (20 - d / 500)
              | None => s2
              end). intros s3 Hs3.
  destruct (Place.is_open_now place); rewrite Hs3, Hs2, Hs1; ring.
Qed.

Lemma Sorted_weaken_In {A : Type} (R R' : A -> A -> Prop) (l : list A) :
  (forall a b, In a l -> In b l -> R a b -> R' a b) ->
  Sorted R l -> Sorted R' l.
Proof.
  intros Himp Hs. induction Hs as [|a l Hs IH Hhd]; constructor.
  - apply IH. intros x y Hx Hy. apply Himp; now right.
  - destruct Hhd as [|b l Hab]; constructor.
    apply Himp; [now left | right; now left | exact Hab].
Qed.

(** With no place at distance 0, the best-match order is the descending
    order of the composite score of the specification. *)
Lemma sortPlaces_best_match_spec (places : list Place.t) (mm : option Mood.t) :
  Forall (fun place => forall d, Place.distance place = Some d -> ~ d == 0)
         places ->
  Permutation places (sortPlaces places SORT_OPTIONS.BEST_MATCH mm) /\
  Sorted (fun a b => composite_score_spec b mm <= composite_score_spec a mm)
         (sortPlaces places SORT_OPTIONS.BEST_MATCH mm).
Proof.
  intros Hnz.
  destruct (sortPlaces_sorted places SORT_OPTIONS.BEST_MATCH mm) as [Hp Hs].
  split; [exact Hp |].
  rewrite List.Forall_forall in Hnz.
  eapply Sorted_weaken_In; [| exact Hs].
  intros a b Ha Hb Hab. cbn in Hab.
  apply (Permutation_in _ (Permutation_sym Hp)) in Ha, Hb.
  rewrite <- (calculatePlaceScore_spec a mm (Hnz a Ha)).
  rewrite <- (calculatePlaceScore_spec b mm (Hnz b Hb)).
  unfold sortPlaces_compare in Hab. simpl in Hab. lra.
Qed.

(** C7 at a place whose distance is 0.  The distance component is guarded
    by [if (place.distance)], which a distance of 0 does not pass: the place
    at the search origin itself gets no distance points where the composite
    score gives it all 20, and is ranked after a place 100 m away. *)
Theorem calculatePlaceScore_distance_zero :
  let here := Place.with_distance (bare_place "here") 0 in
  let near := Place.with_distance (bare_place "near") 100 in
  calculatePlaceScore here None == 0 /\
  composite_score_spec here None == 20 /\
  calculatePlaceScore near None == 19.8 /\
  sortPlaces [here; near] SORT_OPTIONS.BEST_MATCH None = [near; here].
Proof. repeat split. Qed.

(** ** Aggregation of the sub-query results *)

Lemma catch_fulfilled (p : JS.promise (list Place.t)) :
  JS.catch p (fun _ => []) = JS.Fulfilled (value_or_empty p).
Proof. destruct p; reflexivity. Qed.

Lemma Promise_all_fulfilled {A : Type} (vs : list A) :
  JS.Promise_all (map JS.Fulfilled vs) = JS.Fulfilled vs.
Proof. induction vs as [|v vs IH]; simpl; [| rewrite IH]; reflexivity. Qed.

(** Given an array of types, [searchMultipleTypes] fulfils with the
    combination of what its sub-queries contribute, a rejected sub-query
    contributing nothing. *)
Lemma searchMultipleTypes_fulfils calculateDistance googleInstance service
    (types : list string) (keywords : option (list string)) location radius :
  searchMultipleTypes calculateDistance googleInstance service (Some types)
    keywords location radius =
  JS.Fulfilled (combine
    (map (fun type => value_or_empty
            (searchNearbyPlaces calculateDistance googleInstance service
               location radius (Some type) [] None)) types
     ++ map (fun keyword => value_or_empty
            (textSearchPlaces calculateDistance googleInstance service keyword
               location radius)) (default [] keywords))).
Proof.
  unfold searchMultipleTypes.
  rewrite (map_ext _ (fun type => JS.Fulfilled (value_or_empty
            (searchNearbyPlaces calculateDistance googleInstance service
               location radius (Some type) [] None))))
    by (intros; apply catch_fulfilled).
  rewrite (map_ext (fun keyword => JS.catch _ _)
            (fun keyword => JS.Fulfilled (value_or_empty
            (textSearchPlaces calculateDistance googleInstance service keyword
               location radius))))
    by (intros; apply catch_fulfilled).
  rewrite <- (map_map _ JS.Fulfilled types),
          <- (map_map _ JS.Fulfilled (default [] keywords)).
  rewrite <- map_app, Promise_all_fulfilled. reflexivity.
Qed.

(** Called without [types], as [searchByMood] does for a mood value that
    has none, [searchMultipleTypes] rejects. *)
Lemma searchMultipleTypes_undefined_types calculateDistance googleInstance
    service keywords location radius :
  searchMultipleTypes calculateDistance googleInstance service None keywords
    location radius
  = JS.Rejected "TypeError: Cannot read properties of undefined".
Proof. reflexivity. Qed.

Lemma concat_all_nil {A B : Type} (f : A -> list B) (l : list A) :
  (forall x, In x l -> f x = []) -> concat (map f l) = [].
Proof.
  induction l as [|a l IH]; simpl; intros H; [reflexivity |].
  rewrite (H a (or_introl eq_refl)), IH; [reflexivity |].
  intros x Hx. apply H. now right.
Qed.

(** C3 (as the code has it).  When every type and keyword sub-query fails,
    [searchMultipleTypes], given its array of types, resolves with the
    empty list instead of surfacing an error: a total failure of the
    sub-queries is swallowed as empty results just as an individual failure
    is, the result with a failed type sub-query being the result without
    that type. *)
Theorem searchMultipleTypes_total_failure calculateDistance googleInstance
    service (types : list string) (keywords : option (list string))
    location radius :
  ((forall type, In type types ->
      exists err, searchNearbyPlaces calculateDistance googleInstance service
                    location radius (Some type) [] None = JS.Rejected err) ->
   (forall keyword, In keyword (default [] keywords) ->
      exists err, textSearchPlaces calculateDistance googleInstance service
                    keyword location radius = JS.Rejected err) ->
   searchMultipleTypes calculateDistance googleInstance service (Some types)
     keywords location radius = JS.Fulfilled []) /\
  (forall types1 type types2 err,
      types = (types1 ++ type :: types2)%list ->
      searchNearbyPlaces calculateDistance googleInstance service location
        radius (Some type) [] None = JS.Rejected err ->
      searchMultipleTypes calculateDistance googleInstance service (Some types)
        keywords location radius
      = searchMultipleTypes calculateDistance googleInstance service
          (Some (types1 ++ types2)%list) keywords location radius).
Proof.
  split.
  - rewrite searchMultipleTypes_fulfils.
    intros Ht Hk. unfold combine. rewrite concat_app.
    rewrite !concat_all_nil; [reflexivity | |].
    + intros keyword Hin. destruct (Hk keyword Hin) as [err ->]. reflexivity.
    + intros type Hin. destruct (Ht type Hin) as [err ->]. reflexivity.
  - intros types1 type types2 err -> Hrej.
    rewrite !searchMultipleTypes_fulfils.
    unfold combine. rewrite !List.map_app, !concat_app. simpl.
    rewrite Hrej. simpl. reflexivity.
Qed.

Lemma failing_service_rejects :
  (forall type, searchNearbyPlaces flat_distance true failing_service origin
                  2000 (Some type) [] None
                = JS.Rejected "Places search failed: UNKNOWN_ERROR") /\
  (forall keyword, textSearchPlaces flat_distance true failing_service keyword
                     origin 2000
                   = JS.Rejected "Text search failed: UNKNOWN_ERROR").
Proof. split; intros; reflexivity. Qed.

Lemma searchMultipleTypes_total_failure_witness :
  searchMultipleTypes flat_distance true failing_service (Some ["cafe"])
    (Some ["coffee"]) origin 2000 = JS.Fulfilled [] /\
  searchMultipleTypes flat_distance true failing_service
    (Some ["cafe"; "library"]) None origin 2000
  = searchMultipleTypes flat_distance true failing_service (Some ["cafe"])
      None origin 2000.
Proof.
  split.
  - apply (proj1 (searchMultipleTypes_total_failure flat_distance true
                    failing_service ["cafe"] (Some ["coffee"]) origin 2000)).
    + intros type _. eexists. apply failing_service_rejects.
    + intros keyword _. eexists. apply failing_service_rejects.
  - apply (proj2 (searchMultipleTypes_total_failure flat_distance true
                    failing_service ["cafe"; "library"] None origin 2000)
             ["cafe"] "library" []
             "Places search failed: UNKNOWN_ERROR"); reflexivity.
Defined.

(** C3 as stated fails: with the Maps API not loaded, or with a provider
    that answers every request with an error, every sub-query rejects, and
    [searchMultipleTypes] still fulfils with the empty list instead of
    rejecting. *)
Lemma total_outage_resolves_empty :
  searchNearbyPlaces flat_distance false failing_service origin 2000
    (Some "cafe") [] None = JS.Rejected not_loaded /\
  searchNearbyPlaces flat_distance false failing_service origin 2000
    (Some "library") [] None = JS.Rejected not_loaded /\
  textSearchPlaces flat_distance false failing_service "coworking" origin 2000
  = JS.Rejected not_loaded /\
  searchMultipleTypes flat_distance false failing_service
    (Some ["cafe"; "library"]) (Some ["coworking"]) origin 2000
  = JS.Fulfilled [] /\
  ~ (exists err,
      searchMultipleTypes flat_distance false failing_service
        (Some ["cafe"; "library"]) (Some ["coworking"]) origin 2000
      = JS.Rejected err).
Proof.
  repeat (split; [reflexivity |]). intros [err H]. discriminate.
Qed.

(** ** Deduplication *)


Lemma has_false_iff {V : Type} (m : JSMap.t V) (k : string) :
  JSMap.has m k = false <-> ~ In k (map fst m).
Proof.
  unfold JSMap.has. induction m as [|[k' v] m IH]; simpl.
  - tauto.
  - rewrite orb_false_iff, IH, String.eqb_neq. tauto.
Qed.


Lemma set_fresh {V : Type} (m : JSMap.t V) (k : string) (v : V) :
  JSMap.has m k = false -> JSMap.set m k v = (m ++ [(k, v)])%list.
Proof.
  unfold JSMap.has. induction m as [|[k' v'] m IH]; simpl; [reflexivity |].
  destruct (String.eqb k' k); simpl; [discriminate |].
  intros H. now rewrite IH.
Qed.






Example combine_example :
  let a1 := with_rating (bare_place "a") 4.5 in
  let a2 := with_rating (bare_place "a") 3.0 in
  let b := bare_place "b" in
  combine [[a1; b]; [a2; b]] = [a1; b].
Proof. reflexivity. Qed.

(** ** The details cache *)

Section DetailsCache.
Variable googleInstance : bool.
Variables (t1 : Z) (id : string) (result : Place.t).

Lemma cache_step_cached fresh st e :
  cached_since t1 id result fresh st ->
  event_time_from t1 e -> is_clear e = false ->
  cached_since t1 id result (fresh && negb (is_success_for id e))
    (cache_step googleInstance st e).
Proof.
  intros (entry & Hl & Ht & Hd) Htime Hclear.
  destruct e as [now placeId | now placeId r status |]; simpl in *.
  - rewrite andb_true_r.
    destruct (getPlaceDetails googleInstance st.1 now placeId);
      exists entry; auto.
  - destruct status; simpl.
    + destruct (String.eqb placeId id) eqn:E.
      * apply String.eqb_eq in E. subst placeId.
        exists {| data := r; timestamp := now |}. simpl.
        rewrite lookup_insert_eq. repeat split; [exact Htime |].
        rewrite andb_false_r. discriminate.
      * apply String.eqb_neq in E. exists entry. simpl.
        rewrite lookup_insert_ne by exact E. rewrite andb_true_r. auto.
    + exists entry. rewrite andb_true_r. auto.
    + exists entry. rewrite andb_true_r. auto.
  - discriminate.
Qed.

Lemma cache_run_cached es : forall fresh st,
  cached_since t1 id result fresh st -> Forall (event_time_from t1) es ->
  existsb is_clear es = false ->
  cached_since t1 id result (fresh && negb (existsb (is_success_for id) es))
    (cache_run googleInstance st es).
Proof.
  induction es as [|e es IH]; simpl; intros fresh st Hc Ht Hcl.
  - now rewrite andb_true_r.
  - apply orb_false_iff in Hcl. destruct Hcl as [Hcl1 Hcl2].
    apply Forall_cons in Ht. destruct Ht as [Ht1 Ht2].
    rewrite negb_orb, andb_assoc. apply IH; [| exact Ht2 | exact Hcl2].
    now apply cache_step_cached.
Qed.

End DetailsCache.

(** C10.  After a lookup of [id] succeeded at time [t1], and whatever calls
    and provider callbacks follow it (at times not before [t1], with no
    [clearDetailsCache] among them), a call for [id] at a time [t2] less
    than [CACHE_DURATION] after [t1] resolves with the record the cache
    holds for [id] and issues no provider request; that record is the one
    of the lookup at [t1] unless a later lookup of [id] succeeded in
    between.  A callback with a status other than OK leaves the cache as it
    was. *)
Theorem getPlaceDetails_cached (googleInstance : bool)
    (cache0 : gmap string CacheEntry) (issued0 : list string)
    (t1 : Z) (id : string) (result : Place.t)
    (es : list cache_event) (t2 : Z) :
  let st1 := cache_step googleInstance (cache0, issued0)
               (Callback t1 id result PlacesService.OK) in
  let st2 := cache_run googleInstance st1 es in
  Forall (event_time_from t1) es ->
  existsb is_clear es = false ->
  (t2 - t1 < CACHE_DURATION)%Z ->
  (exists entry,
      fst st2 !! id = Some entry /\
      getPlaceDetails googleInstance (fst st2) t2 id = FromCache (data entry) /\
      (existsb (is_success_for id) es = false -> data entry = result)) /\
  cache_step googleInstance st2 (Call t2 id) = st2 /\
  (forall cache now placeId r status,
      status <> PlacesService.OK ->
      fst (getDetails_callback cache now placeId r status) = cache).
Proof.
  intros st1 st2 Htime Hclear Hlt.
  assert (H1 : cached_since t1 id result true st1).
  { exists {| data := result; timestamp := t1 |}. subst st1. simpl.
    rewrite lookup_insert_eq. repeat split. simpl. lia. }
  destruct (cache_run_cached googleInstance t1 id result es true st1 H1 Htime
              Hclear) as (entry & Hl & Ht & Hd).
  fold st2 in Hl.
  assert (Hhit : getPlaceDetails googleInstance (fst st2) t2 id
                 = FromCache (data entry)).
  { unfold getPlaceDetails. rewrite Hl.
    replace (t2 - timestamp entry <? CACHE_DURATION)%Z with true; [reflexivity |].
    symmetry. apply Z.ltb_lt. lia. }
  split; [| split].
  - exists entry. repeat split; [exact Hl | exact Hhit |].
    intros Hno. apply Hd. now rewrite Hno.
  - simpl. rewrite Hhit. reflexivity.
  - intros cache now placeId r status Hs. destruct status; [congruence | |];
      reflexivity.
Qed.

Lemma getPlaceDetails_cached_witness :
  let es := [Call 2000 "q"; Callback 3000 "q" (bare_place "q") PlacesService.OK;
             Callback 3500 "p" (bare_place "x")
               (PlacesService.Failure "NOT_FOUND")] in
  let st2 := cache_run true
               (cache_step true (∅, [])
                  (Callback 1000 "p" (bare_place "p") PlacesService.OK)) es in
  getPlaceDetails true (fst st2) 200000 "p" = FromCache (bare_place "p") /\
  snd (cache_step true st2 (Call 200000 "p")) = ["q"].
Proof.
  intros es st2.
  destruct (getPlaceDetails_cached true ∅ [] 1000 "p" (bare_place "p") es
              200000) as ((entry & Hl & Hhit & Hsame) & Hstep & _).
  - repeat constructor; simpl; lia.
  - reflexivity.
  - reflexivity.
  - fold st2 in Hhit, Hstep. rewrite Hhit, Hstep, Hsame; [| reflexivity].
    split; reflexivity.
Defined.

(** ** Supersession of searches *)

Lemma searchByMood_call_others mood location service filters0 sortBy0 st :
  others_aborted st ->
  others_aborted
    (UsePlaces.searchByMood_call mood location service filters0 sortBy0 st).
Proof.
  intros Inv. unfold UsePlaces.searchByMood_call.
  destruct location as [loc|]; [| exact Inv].
  set (searches1 := match UsePlaces.searchAbortRef st with
                    | Some r => alter UsePlaces.set_abort r (UsePlaces.searches st)
                    | None => UsePlaces.searches st
                    end).
  assert (Hold : forall k s, searches1 !! k = Some s ->
                   k <> length searches1 -> UsePlaces.abort s = true).
  { intros k s Hk _. subst searches1.
    destruct (UsePlaces.searchAbortRef st) as [r|] eqn:Er.
    - destruct (decide (r = k)) as [-> | Hne].
      + rewrite list_lookup_alter_eq in Hk.
        destruct (UsePlaces.searches st !! k); [| discriminate].
        simpl in Hk. injection Hk as <-. reflexivity.
      + rewrite list_lookup_alter_ne in Hk by exact Hne.
        apply (Inv k s Hk). rewrite Er. congruence.
    - apply (Inv k s Hk). rewrite Er. discriminate. }
  assert (Hnew : forall x k s, (searches1 ++ [x])%list !! k = Some s ->
                   Some (length searches1) <> Some k ->
                   UsePlaces.abort s = true).
  { intros x k s Hk Hne. apply lookup_snoc_Some in Hk.
    destruct Hk as [[_ Hk] | [-> _]]; [| congruence].
    apply (Hold k s Hk). congruence. }
  destruct service; simpl; intros k s Hk Hne; simpl in *; eapply Hnew; eauto.
Qed.

Lemma searchByMood_resume_others k provider st :
  others_aborted st ->
  others_aborted (UsePlaces.searchByMood_resume k provider st).
Proof.
  intros Inv. unfold UsePlaces.searchByMood_resume.
  destruct (UsePlaces.searches st !! k) as [cur|] eqn:Ek; [| exact Inv].
  destruct (UsePlaces.awaiting cur); simpl; [| exact Inv].
  assert (Halt : forall j s,
            alter UsePlaces.set_resumed k (UsePlaces.searches st) !! j = Some s ->
            UsePlaces.searchAbortRef st <> Some j -> UsePlaces.abort s = true).
  { intros j s Hj Hne. destruct (decide (k = j)) as [-> | Hkj].
    - rewrite list_lookup_alter_eq, Ek in Hj. simpl in Hj. injection Hj as <-.
      simpl. now apply (Inv j cur Ek).
    - rewrite list_lookup_alter_ne in Hj by exact Hkj. now apply (Inv j s). }
  destruct (UsePlaces.search_outcome _ provider) as [results | err];
    [destruct (UsePlaces.moodMapping cur) |];
    destruct (UsePlaces.abort cur); exact Halt.
Qed.

Lemma run_from_others es : forall st,
  others_aborted st -> others_aborted (UsePlaces.run_from st es).
Proof.
  induction es as [|e es IH]; simpl; intros st Inv; [exact Inv |].
  apply IH. destruct e; simpl.
  - now apply searchByMood_call_others.
  - now apply searchByMood_resume_others.
Qed.

Lemma run_others es : others_aborted (UsePlaces.run es).
Proof.
  apply run_from_others. intros k s Hk. discriminate.
Qed.

(** C6.  After any sequence of calls of [searchByMood] and of provider
    responses, the response to an invocation other than the latest one to
    pass the location check changes nothing of what is published: places,
    filtered places, error and loading flag stay as they are.  So once
    search B has started, the late response to search A is discarded,
    however many searches followed one another. *)
Theorem superseded_search_never_published
    (es : list UsePlaces.event) (k : nat)
    (provider : JS.promise (list Place.t)) :
  UsePlaces.searchAbortRef (UsePlaces.run es) <> Some k ->
  UsePlaces.published
    (UsePlaces.searchByMood_resume k provider (UsePlaces.run es))
  = UsePlaces.published (UsePlaces.run es).
Proof.
  intros Hne. assert (Inv := run_others es).
  set (st := UsePlaces.run es) in *. unfold UsePlaces.searchByMood_resume.
  destruct (UsePlaces.searches st !! k) as [cur|] eqn:Ek; [| reflexivity].
  destruct (UsePlaces.awaiting cur); simpl; [| reflexivity].
  rewrite (Inv k cur Ek Hne).
  destruct (UsePlaces.search_outcome _ provider) as [results | err];
    [destruct (UsePlaces.moodMapping cur) |]; reflexivity.
Qed.

Lemma superseded_search_never_published_witness :
  let es := [UsePlaces.Search_call "coffee" (Some origin) true DEFAULT_FILTERS
               SORT_OPTIONS.BEST_MATCH;
             UsePlaces.Search_call "drinks" (Some origin) true DEFAULT_FILTERS
               SORT_OPTIONS.BEST_MATCH;
             UsePlaces.Settle 1 (JS.Fulfilled [place_b])] in
  UsePlaces.places (UsePlaces.run es)
  = [Place.with_relevanceScore place_b 70] /\
  UsePlaces.published
    (UsePlaces.searchByMood_resume 0 (JS.Fulfilled [place_a]) (UsePlaces.run es))
  = UsePlaces.published (UsePlaces.run es).
Proof.
  intros es. split; [reflexivity |].
  apply (superseded_search_never_published es 0 (JS.Fulfilled [place_a])).
  discriminate.
Defined.

(** * Further properties *)

(** ** The filter and sort pipeline *)

(** X1.  [filterAndSortPlaces] returns the places that pass the filter,
    each as often as it occurs in the input, and nothing else; so its output
    is never longer than its input. *)
Theorem filterAndSortPlaces_keeps_passing
    (places : list Place.t) (filters : Filters.t) (sortBy : string)
    (moodMapping : option Mood.t) :
  let out := filterAndSortPlaces places filters sortBy moodMapping in
  Permutation (filterPlaces places filters) out /\
  (forall place, In place out <->
                 In place places /\ filterPlaces_keep filters place = true) /\
  (length out <= length places)%nat.
Proof.
  intros out. subst out. unfold filterAndSortPlaces.
  destruct (sortPlaces_sorted (filterPlaces places filters) sortBy moodMapping)
    as [Hp _].
  split; [exact Hp |]. split.
  - intros place. rewrite <- filter_In.
    change (List.filter (filterPlaces_keep filters) places)
      with (filterPlaces places filters). split.
    + apply Permutation_in. now apply Permutation_sym.
    + now apply Permutation_in.
  - rewrite <- (Permutation_length Hp). unfold filterPlaces.
    apply List.filter_length_le.
Qed.

Lemma Sorted_strong_by_key {A : Type} (key : A -> Q) (l : list A) :
  Sorted (fun a b => key a <= key b) l ->
  StronglySorted (fun a b => key a <= key b) l.
Proof.
  apply Sorted_StronglySorted. intros a b c Hab Hbc.
  now apply Qle_trans with (key b).
Qed.

(** X2.  Sorting by [nearest] rearranges the places so that no place comes
    after one with a greater distance, where a missing distance counts as
    0: places without distance come first. *)
Theorem sortPlaces_nearest (places : list Place.t) (mm : option Mood.t) :
  let out := sortPlaces places SORT_OPTIONS.NEAREST mm in
  Permutation places out /\
  StronglySorted
    (fun a b => or_zero (Place.distance a) <= or_zero (Place.distance b)) out.
Proof.
  intros out. subst out.
  destruct (sortPlaces_sorted places SORT_OPTIONS.NEAREST mm) as [Hp Hs].
  split; [exact Hp |].
  apply (Sorted_strong_by_key (fun a => or_zero (Place.distance a))).
  eapply Sorted_weaken_In; [| exact Hs].
  intros a b _ _ Hab. unfold sortPlaces_compare in Hab. simpl in Hab. lra.
Qed.

Lemma StronglySorted_split {A : Type} (R : A -> A -> Prop)
    (l1 l2 l3 : list A) (a b : A) :
  StronglySorted R (l1 ++ a :: l2 ++ b :: l3)%list -> R a b.
Proof.
  induction l1 as [|x l1 IH]; simpl; intros Hs.
  - apply StronglySorted_inv in Hs. destruct Hs as [_ Hall].
    rewrite List.Forall_forall in Hall. apply Hall.
    apply in_or_app. right. now left.
  - apply StronglySorted_inv in Hs. now apply IH.
Qed.

(** X3.  Both price orders put the places without price level at the end:
    with price levels between 0 and 4, no place with a price level comes
    after a place without one, in [price_low] and in [price_high] order
    alike; among the priced places the order is ascending, respectively
    descending. *)
Theorem sortPlaces_price_unknown_last (places : list Place.t)
    (mm : option Mood.t) (sortBy : string) :
  sortBy = SORT_OPTIONS.PRICE_LOW \/ sortBy = SORT_OPTIONS.PRICE_HIGH ->
  (forall place x, In place places -> Place.price_level place = Some x ->
                   0 <= x <= 4) ->
  forall l1 a l2 b l3,
    sortPlaces places sortBy mm = (l1 ++ a :: l2 ++ b :: l3)%list ->
    match Place.price_level a, Place.price_level b with
    | None, Some _ => False
    | Some x, Some y =>
        if String.eqb sortBy SORT_OPTIONS.PRICE_LOW then x <= y else y <= x
    | _, None => True
    end.
Proof.
  intros Hmode Hrange l1 a l2 b l3 Hout.
  destruct (sortPlaces_sorted places sortBy mm) as [Hp Hs].
  assert (Hin : forall p, In p (l1 ++ a :: l2 ++ b :: l3)%list -> In p places).
  { intros p Hp'. rewrite <- Hout in Hp'.
    now apply (Permutation_in _ (Permutation_sym Hp)). }
  assert (Ha : In a places) by (apply Hin, in_or_app; right; now left).
  assert (Hb : In b places).
  { apply Hin, in_or_app. right. right. apply in_or_app. right. now left. }
  destruct Hmode as [-> | ->].
  - assert (Hk : nullish (Place.price_level a) 5
                 <= nullish (Place.price_level b) 5).
    { apply (StronglySorted_split
               (fun p q => nullish (Place.price_level p) 5
                           <= nullish (Place.price_level q) 5) l1 l2 l3).
      rewrite <- Hout.
      apply (Sorted_strong_by_key (fun p => nullish (Place.price_level p) 5)).
      eapply Sorted_weaken_In; [| exact Hs].
      intros p q _ _ Hpq. unfold sortPlaces_compare in Hpq. simpl in Hpq. lra. }
    unfold nullish in Hk.
    destruct (Place.price_level a) as [x|] eqn:Ea,
             (Place.price_level b) as [y|] eqn:Eb; simpl in *; auto.
    specialize (Hrange b y Hb Eb). lra.
  - assert (Hk : - nullish (Place.price_level a) (-1)
                 <= - nullish (Place.price_level b) (-1)).
    { apply (StronglySorted_split
               (fun p q => - nullish (Place.price_level p) (-1)
                           <= - nullish (Place.price_level q) (-1)) l1 l2 l3).
      rewrite <- Hout.
      apply (Sorted_strong_by_key
               (fun p => - nullish (Place.price_level p) (-1))).
      eapply Sorted_weaken_In; [| exact Hs].
      intros p q _ _ Hpq. unfold sortPlaces_compare in Hpq. simpl in Hpq. lra. }
    unfold nullish in Hk.
    destruct (Place.price_level a) as [x|] eqn:Ea,
             (Place.price_level b) as [y|] eqn:Eb; simpl in *; auto.
    + lra.
    + specialize (Hrange b y Hb Eb). lra.
Qed.

Lemma sortPlaces_price_unknown_last_witness :
  let unknown := bare_place "u" in
  let p3 := with_price (bare_place "p3") 3 in
  let p1 := with_price (bare_place "p1") 1 in
  sortPlaces [unknown; p3; p1] SORT_OPTIONS.PRICE_LOW None = [p1; p3; unknown]
  /\ 1 <= 3.
Proof.
  intros unknown p3 p1. split; [reflexivity |].
  apply (sortPlaces_price_unknown_last [unknown; p3; p1] None
           SORT_OPTIONS.PRICE_LOW (or_introl eq_refl)) with
    (l1 := []) (a := p1) (l2 := []) (b := p3) (l3 := [unknown]).
  - intros place x [<- | [<- | [<- | []]]] [= <-]; split; discriminate.
  - reflexivity.
Defined.

Lemma rated_before_trans (a b c : Place.t) :
  rated_before a b -> rated_before b c -> rated_before a c.
Proof.
  unfold rated_before. intros [H1 | [H1 H1']] [H2 | [H2 H2']].
  - left. lra.
  - left. lra.
  - left. lra.
  - right. split; lra.
Qed.

(** X4.  Sorting by [highest_rated] rearranges the places so that every
    place has a higher rating than each place after it, or the same rating
    and at least as many ratings; missing values count as 0. *)
Theorem sortPlaces_highest_rated (places : list Place.t) (mm : option Mood.t) :
  let out := sortPlaces places SORT_OPTIONS.HIGHEST_RATED mm in
  Permutation places out /\ StronglySorted rated_before out.
Proof.
  intros out. subst out.
  destruct (sortPlaces_sorted places SORT_OPTIONS.HIGHEST_RATED mm) as [Hp Hs].
  split; [exact Hp |].
  apply Sorted_StronglySorted; [exact rated_before_trans |].
  eapply Sorted_weaken_In; [| exact Hs].
  intros a b _ _ Hab. unfold sortPlaces_compare in Hab. simpl in Hab.
  unfold rated_before.
  destruct (Qeq_bool (or_zero (Place.rating b) - or_zero (Place.rating a)) 0)
    eqn:E; simpl in Hab.
  - apply Qeq_bool_iff in E. right. split; lra.
  - apply Qeq_bool_neq in E. left. lra.
Qed.

(** ** Monotonicity of scoring and filtering *)

Lemma ge_true_iff (x y : Q) : JS.ge x y = true <-> y <= x.
Proof. unfold JS.ge. apply Qle_bool_iff. Qed.

Lemma ge_false_iff (x y : Q) : JS.ge x y = false <-> x < y.
Proof.
  unfold JS.ge. split.
  - intros H. apply Qnot_le_lt. intros Hle. apply Qle_bool_iff in Hle. congruence.
  - intros H. destruct (Qle_bool y x) eqn:E; [| reflexivity].
    apply Qle_bool_iff in E. lra.
Qed.

Lemma truthy_field_positive (x : Q) : 0 < x -> JS.truthy_field (Some x) = Some x.
Proof.
  intros H. apply truthy_field_Some. split; [reflexivity | lra].
Qed.

Lemma score_rating_mono (place : Place.t) (mm : Mood.t) (r1 r2 : Q) :
  0 < r1 -> r1 <= r2 ->
  score_rating (with_rating place r1) mm 0
  <= score_rating (with_rating place r2) mm 0.
Proof.
  intros H0 Hle. unfold score_rating. simpl Place.rating.
  rewrite !truthy_field_positive by lra.
  destruct (Mood.prioritizeRating mm).
  - repeat match goal with
           | |- context [JS.ge ?a ?b] =>
               let E := fresh "E" in
               destruct (JS.ge a b) eqn:E;
               [apply ge_true_iff in E | apply ge_false_iff in E]
           end; lra.
  - assert (H1 : r1 / 5 * 10 == 2 * r1) by field.
    assert (H2 : r2 / 5 * 10 == 2 * r2) by field.
    rewrite H1, H2. lra.
Qed.

(** X5.  A better rating never lowers the relevance score: of two places
    that differ only in their (positive) rating, the one rated higher
    scores at least as much, for every mood mapping. *)
Theorem calculateRelevanceScore_rating_mono
    (place : Place.t) (mm : Mood.t) (r1 r2 : Q) :
  0 < r1 -> r1 <= r2 ->
  (calculateRelevanceScore (with_rating place r1) mm
   <= calculateRelevanceScore (with_rating place r2) mm)%Z.
Proof.
  intros H0 Hle. unfold calculateRelevanceScore.
  assert (Hrel : relevance (with_rating place r1) mm
                 <= relevance (with_rating place r2) mm).
  { rewrite (relevance_sum (with_rating place r1)),
            (relevance_sum (with_rating place r2)).
    change (score_types (with_rating place r2) mm 40)
      with (score_types (with_rating place r1) mm 40).
    change (score_price (with_rating place r2) mm 0)
      with (score_price (with_rating place r1) mm 0).
    change (score_popularity (with_rating place r2) 0)
      with (score_popularity (with_rating place r1) 0).
    change (score_open (with_rating place r2) 0)
      with (score_open (with_rating place r1) 0).
    change (score_distance (with_rating place r2) 0)
      with (score_distance (with_rating place r1) 0).
    pose proof (score_rating_mono place mm r1 r2 H0 Hle). lra. }
  assert (Hround : (JS.Math_round (relevance (with_rating place r1) mm)
                    <= JS.Math_round (relevance (with_rating place r2) mm))%Z).
  { unfold JS.Math_round. apply Qfloor_resp_le. lra. }
  lia.
Qed.

Lemma calculateRelevanceScore_rating_mono_witness :
  (calculateRelevanceScore (with_rating (bare_place "p") 3.4) coffee
   <= calculateRelevanceScore (with_rating (bare_place "p") 4.2) coffee)%Z.
Proof.
  apply (calculateRelevanceScore_rating_mono (bare_place "p") coffee 3.4 4.2);
    reflexivity || discriminate.
Defined.

(** X6.  Raising [minRating] never adds a place: whatever the other
    criteria, every place kept under the higher floor is kept under the
    lower one. *)
Theorem filterPlaces_minRating_antitone
    (places : list Place.t) (filters : Filters.t) (r1 r2 : Q) :
  r1 <= r2 ->
  forall place,
    In place (filterPlaces places (set_minRating filters r2)) ->
    In place (filterPlaces places (set_minRating filters r1)).
Proof.
  intros Hle place. unfold filterPlaces. rewrite !filter_In.
  intros [Hin Hkeep]. split; [exact Hin |].
  revert Hkeep. unfold filterPlaces_keep. simpl.
  destruct (JS.truthy_field (Place.rating place)) as [x|]; [| auto].
  destruct (JS.lt x r2) eqn:E2; [discriminate |].
  destruct (JS.lt x r1) eqn:E1; [| auto].
  apply lt_true_iff in E1.
  assert (H : JS.lt x r2 = true) by (apply lt_true_iff; lra). congruence.
Qed.

Lemma filterPlaces_minRating_antitone_witness :
  In (with_rating (bare_place "b") 4.5)
     (filterPlaces [with_rating (bare_place "a") 3.0;
                    with_rating (bare_place "b") 4.5]
        (set_minRating DEFAULT_FILTERS 3.5)).
Proof.
  apply (filterPlaces_minRating_antitone _ DEFAULT_FILTERS 3.5 4.0).
  - discriminate.
  - vm_compute. left. reflexivity.
Defined.

(** ** Mood resolution, continued *)

Lemma own_property_first (o : list (string * Mood.t)) key m :
  NoDup (Object_keys o) -> In (key, m) o -> own_property o key = Some m.
Proof.
  unfold Object_keys.
  induction o as [|[k v] o IH]; simpl; intros Hnd Hin; [destruct Hin |].
  apply NoDup_cons in Hnd. destruct Hnd as [Hk Hnd].
  destruct Hin as [[= -> ->] | Hin].
  - now rewrite String.eqb_refl.
  - destruct (String.eqb k key) eqn:E; [| now apply IH].
    apply String.eqb_eq in E. subst k. exfalso. apply Hk.
    apply list_elem_of_In. apply (in_map fst) in Hin. exact Hin.
Qed.

Lemma moodMappings_keys_NoDup : NoDup (Object_keys moodMappings).
Proof. apply (bool_decide_unpack _). vm_compute. reflexivity. Qed.

(** X7.  An input that normalizes to a key of the table (lower case,
    trimmed, hyphens as spaces) resolves to exactly the mapping stored
    under that key. *)
Theorem getMoodMapping_exact_key (mood key : string) (m : Mood.t) :
  In (key, m) moodMappings ->
  JS.replace_hyphens (JS.trim (JS.toLowerCase mood)) = key ->
  getMoodMapping mood = Mapping m.
Proof.
  intros Hin Hnorm. unfold getMoodMapping. rewrite Hnorm.
  assert (Hget : moodMappings_get key = Mapping m).
  { unfold moodMappings_get.
    now rewrite (own_property_first _ _ _ moodMappings_keys_NoDup Hin). }
  rewrite Hget. reflexivity.
Qed.

Lemma getMoodMapping_exact_key_witness :
  getMoodMapping " Quick-Bite " =
  Mapping (Mood.mk ["restaurant"; "meal_takeaway"; "bakery"; "cafe"]
             ["fast food"; "quick"; "takeaway"; "grab and go"; "snack";
              "sandwich"; "burger"; "pizza"]
             "Fast and convenient food" [1; 2] false).
Proof.
  apply (getMoodMapping_exact_key " Quick-Bite " "quick bite").
  - repeat (try (left; reflexivity); right).
  - reflexivity.
Defined.

Lemma lower_ascii_idem (c : ascii) :
  JS.lower_ascii (JS.lower_ascii c) = JS.lower_ascii c.
Proof. destruct c as [[] [] [] [] [] [] [] []]; reflexivity. Qed.

Lemma lower_ascii_white (c : ascii) :
  JS.is_white (JS.lower_ascii c) = JS.is_white c.
Proof. destruct c as [[] [] [] [] [] [] [] []]; reflexivity. Qed.

Lemma lower_ascii_hyphen (c : ascii) :
  JS.lower_ascii (if Ascii.eqb c "-" then " "%char else c) =
  (if Ascii.eqb (JS.lower_ascii c) "-" then " "%char else JS.lower_ascii c).
Proof. destruct c as [[] [] [] [] [] [] [] []]; reflexivity. Qed.

Lemma toLowerCase_idem (s : string) :
  JS.toLowerCase (JS.toLowerCase s) = JS.toLowerCase s.
Proof.
  induction s as [|c s IH]; simpl; [reflexivity |].
  now rewrite lower_ascii_idem, IH.
Qed.

Lemma toLowerCase_trimStart (s : string) :
  JS.toLowerCase (JS.trimStart s) = JS.trimStart (JS.toLowerCase s).
Proof.
  induction s as [|c s IH]; simpl; [reflexivity |].
  rewrite lower_ascii_white. destruct (JS.is_white c); [exact IH | reflexivity].
Qed.

Lemma toLowerCase_trimEnd (s : string) :
  JS.toLowerCase (JS.trimEnd s) = JS.trimEnd (JS.toLowerCase s).
Proof.
  induction s as [|c s IH]; simpl; [reflexivity |].
  rewrite <- IH, lower_ascii_white.
  destruct (JS.trimEnd s); simpl; [destruct (JS.is_white c) |]; reflexivity.
Qed.

Lemma toLowerCase_replace_hyphens (s : string) :
  JS.toLowerCase (JS.replace_hyphens s) = JS.replace_hyphens (JS.toLowerCase s).
Proof.
  induction s as [|c s IH]; simpl; [reflexivity |].
  now rewrite lower_ascii_hyphen, IH.
Qed.

(** The normalized input is in lower case. *)
Lemma normalized_lower (mood : string) :
  let normalizedMood := JS.replace_hyphens (JS.trim (JS.toLowerCase mood)) in
  JS.toLowerCase normalizedMood = normalizedMood.
Proof.
  simpl. unfold JS.trim.
  now rewrite toLowerCase_replace_hyphens, toLowerCase_trimEnd,
    toLowerCase_trimStart, toLowerCase_idem.
Qed.

Lemma indexOf_lt (l : list string) (s : string) (i : nat) :
  JS.indexOf l s = Some i -> (i < length l)%nat.
Proof.
  revert i. induction l as [|x l IH]; simpl; intros i; [discriminate |].
  destruct (String.eqb x s); [intros [= <-]; lia |].
  destruct (JS.indexOf l s) as [j|]; simpl; [| discriminate].
  intros [= <-]. specialize (IH j eq_refl). lia.
Qed.

Lemma own_property_key (o : list (string * Mood.t)) (key : string) :
  In key (Object_keys o) -> exists m, own_property o key = Some m.
Proof.
  unfold Object_keys. induction o as [|[k v] o IH]; simpl; [intros [] |].
  destruct (String.eqb k key) eqn:E; [eauto |].
  intros [-> | Hin]; [| now apply IH].
  rewrite String.eqb_refl in E. discriminate.
Qed.

(** X8.  [getMoodMapping] never returns [undefined].  It returns a mapping
    with at least one type for every input but those that normalize to
    [constructor] or [__proto__], the two lower-case names an object
    literal inherits; for these it returns the inherited member. *)
Theorem getMoodMapping_total (mood : string) :
  let normalizedMood := JS.replace_hyphens (JS.trim (JS.toLowerCase mood)) in
  (exists m, getMoodMapping mood = Mapping m /\
             (1 <= length (Mood.types m))%nat) \/
  ((normalizedMood = "constructor" \/ normalizedMood = "__proto__") /\
   getMoodMapping mood = PrototypeMember normalizedMood).
Proof.
  intros nm.
  assert (Hcases : (exists m, getMoodMapping mood = Mapping m) \/
                   (In nm JS.Object_prototype_names /\
                    getMoodMapping mood = PrototypeMember nm)).
  { unfold getMoodMapping. fold nm.
    destruct (moodMappings_get nm) as [m | n |] eqn:Eget;
      cbv beta iota delta [is_truthy].
    - left. eauto.
    - right. unfold moodMappings_get in Eget.
      destruct (own_property moodMappings nm); [discriminate |].
      destruct (JS.includes_str JS.Object_prototype_names nm) eqn:Ein;
        [| discriminate].
      injection Eget as <-.
      split; [exact (proj1 (includes_str_In _ _) Ein) | reflexivity].
    - left.
      destruct (JS.indexOf (map JS.replace_hyphens (Object_keys moodMappings))
                  nm) as [i|] eqn:Ei.
      + apply indexOf_lt in Ei.
        rewrite length_map in Ei.
        destruct (nth_error (Object_values moodMappings) i) as [m|] eqn:En;
          [exists m; reflexivity |].
        apply nth_error_None in En. unfold Object_values, Object_keys in *.
        rewrite !length_map in *. lia.
      + destruct (List.find _ (Object_keys moodMappings)) as [[|c key]|] eqn:Ef.
        2:{ apply find_some in Ef. destruct Ef as [Hin _].
            destruct (own_property_key _ _ Hin) as [m Hm].
            exists m. unfold moodMappings_get. now rewrite Hm. }
        all: destruct (List.find _ (Object_entries moodMappings)) as [[k m]|];
          eauto. }
  destruct Hcases as [[m Hm] | [Hin Hres]].
  - left. exists m. split; [exact Hm |].
    now apply (getMoodMapping_Mapping_types mood).
  - right. split; [| exact Hres].
    pose proof (normalized_lower mood) as Hlow. simpl in Hlow. fold nm in Hlow.
    simpl in Hin.
    repeat (destruct Hin as [Hin | Hin];
            [first [ left; symmetry; exact Hin | right; symmetry; exact Hin
                   | rewrite <- Hin in Hlow; vm_compute in Hlow; discriminate ]
            |]).
    destruct Hin.
Qed.

(** ** Aggregation, continued *)

Lemma fold_collect_values (l : list Place.t) : forall m : JSMap.t Place.t,
  exists k, JSMap.values (fold_left collect l m) = (JSMap.values m ++ k)%list
            /\ sublist k l.
Proof.
  induction l as [|place l IH]; simpl; intros m.
  - exists []. split; [now rewrite app_nil_r | constructor].
  - destruct (IH (collect m place)) as (k & Hk & Hsub).
    assert (Hc : collect m place = m \/
                 collect m place = (m ++ [(Place.place_id place, place)])%list).
    { unfold collect.
      destruct (JSMap.has m (Place.place_id place)) eqn:E; simpl;
        [now left | right; now apply set_fresh]. }
    destruct Hc as [Hc | Hc]; rewrite Hc in Hk at 2.
    + exists k. split; [exact Hk | now apply sublist_cons].
    + exists (place :: k). unfold JSMap.values in Hk at 2.
      rewrite List.map_app in Hk. simpl in Hk.
      rewrite <- app_assoc in Hk. split; [exact Hk | now apply sublist_skip].
Qed.

Lemma fold_collect_fresh (l : list Place.t) : forall m : JSMap.t Place.t,
  NoDup (map fst m ++ map Place.place_id l) ->
  fold_left collect l m = (m ++ map (fun p => (Place.place_id p, p)) l)%list.
Proof.
  induction l as [|place l IH]; simpl; intros m Hnd.
  - now rewrite app_nil_r.
  - assert (E : JSMap.has m (Place.place_id place) = false).
    { apply has_false_iff. intros Hin. apply NoDup_app in Hnd.
      destruct Hnd as (_ & Hdisj & _).
      apply (Hdisj (Place.place_id place)).
      - now apply list_elem_of_In.
      - left. }
    unfold collect. rewrite E. simpl. rewrite (set_fresh _ _ _ E).
    rewrite IH.
    + now rewrite <- app_assoc.
    + rewrite List.map_app. simpl. rewrite <- app_assoc. exact Hnd.
Qed.

Lemma combine_sublist (results : list (list Place.t)) :
  sublist (combine results) (concat results).
Proof.
  unfold combine.
  destruct (fold_collect_values (concat results) []) as (k & Hk & Hsub).
  rewrite Hk. exact Hsub.
Qed.

(** X9.  The merged output lists the places in the order in which the
    flattened sub-query results first show them: it is a subsequence of
    those results, and when no id occurs twice it is those results. *)
Theorem combine_in_order (results : list (list Place.t)) :
  sublist (combine results) (concat results) /\
  (NoDup (map Place.place_id (concat results)) ->
   combine results = concat results).
Proof.
  split; [apply combine_sublist |]. unfold combine.
  intros Hnd. rewrite fold_collect_fresh by exact Hnd. simpl.
    unfold JSMap.values. rewrite List.map_map. simpl. apply List.map_id.
Qed.

Lemma combine_in_order_witness :
  combine [[place_a]; [place_b]] = [place_a; place_b].
Proof.
  rewrite (proj2 (combine_in_order [[place_a]; [place_b]])); [reflexivity |].
  apply (bool_decide_unpack _). vm_compute. reflexivity.
Defined.

Lemma sublist_In {A : Type} (k l : list A) (x : A) :
  sublist k l -> In x k -> In x l.
Proof.
  induction 1 as [| y k l _ IH | y k l _ IH]; simpl; [tauto | |].
  - intros [-> | Hx]; [now left | right; now apply IH].
  - intros Hx. right. now apply IH.
Qed.

Lemma searchNearbyPlaces_distance calculateDistance googleInstance service
    location radius type types keyword place :
  In place (value_or_empty
              (searchNearbyPlaces calculateDistance googleInstance service
                 location radius type types keyword)) ->
  Place.distance place
  = Some (calculateDistance location (Place.location place)).
Proof.
  unfold searchNearbyPlaces. destruct (negb googleInstance); [intros [] |].
  destruct (PlacesService.nearbySearch service _) as [results [| |status]];
    simpl; try (intros []).
  rewrite in_map_iff. intros (q & <- & _). reflexivity.
Qed.

Lemma textSearchPlaces_distance calculateDistance googleInstance service
    query location radius place :
  In place (value_or_empty
              (textSearchPlaces calculateDistance googleInstance service
                 query location radius)) ->
  Place.distance place
  = Some (calculateDistance location (Place.location place)).
Proof.
  unfold textSearchPlaces. destruct (negb googleInstance); [intros [] |].
  destruct (PlacesService.textSearch service _) as [results [| |status]];
    simpl; try (intros []).
  rewrite in_map_iff. intros (q & <- & _). reflexivity.
Qed.

(** X10.  Every place [searchMultipleTypes] resolves with carries its
    distance from the search location, as computed by [calculateDistance]
    from the place's own position. *)
Theorem searchMultipleTypes_distance calculateDistance googleInstance service
    (types keywords : option (list string)) location radius
    (places : list Place.t) :
  searchMultipleTypes calculateDistance googleInstance service types keywords
    location radius = JS.Fulfilled places ->
  forall place, In place places ->
    Place.distance place
    = Some (calculateDistance location (Place.location place)).
Proof.
  destruct types as [types|]; [| discriminate].
  rewrite searchMultipleTypes_fulfils. intros [= <-] place Hin.
  apply (sublist_In _ _ _ (combine_sublist _)) in Hin.
  rewrite concat_app in Hin. apply in_app_or in Hin.
  destruct Hin as [Hin | Hin]; apply in_concat in Hin;
    destruct Hin as (l & Hl & Hin); apply in_map_iff in Hl;
    destruct Hl as (x & <- & _).
  - eapply searchNearbyPlaces_distance, Hin.
  - eapply textSearchPlaces_distance, Hin.
Qed.

Lemma searchMultipleTypes_distance_witness :
  Place.distance (Place.with_distance place_a 0) = Some 0.
Proof.
  apply (searchMultipleTypes_distance flat_distance true cafe_service
           (Some ["cafe"; "bar"]) (Some ["coffee"]) origin 2000
           [Place.with_distance place_a 0; Place.with_distance place_b 0]).
  - reflexivity.
  - left. reflexivity.
Defined.

(** X11.  A sub-query that fails contributes nothing and disturbs nothing:
    the result is the one obtained without the type, or the keyword, whose
    search was rejected. *)
Theorem searchMultipleTypes_skips_failure calculateDistance googleInstance
    service location radius (types1 types2 keywords1 keywords2 : list string) :
  (forall type err,
      searchNearbyPlaces calculateDistance googleInstance service location
        radius (Some type) [] None = JS.Rejected err ->
      searchMultipleTypes calculateDistance googleInstance service
        (Some (types1 ++ type :: types2)%list) (Some keywords1) location radius
      = searchMultipleTypes calculateDistance googleInstance service
          (Some (types1 ++ types2)%list) (Some keywords1) location radius) /\
  (forall keyword err,
      textSearchPlaces calculateDistance googleInstance service keyword
        location radius = JS.Rejected err ->
      searchMultipleTypes calculateDistance googleInstance service
        (Some types1) (Some (keywords1 ++ keyword :: keywords2)%list)
        location radius
      = searchMultipleTypes calculateDistance googleInstance service
          (Some types1) (Some (keywords1 ++ keywords2)%list) location radius).
Proof.
  split.
  - intros type err Hrej. rewrite !searchMultipleTypes_fulfils.
    unfold combine. rewrite !List.map_app, !concat_app. simpl.
    rewrite Hrej. simpl. reflexivity.
  - intros keyword err Hrej. rewrite !searchMultipleTypes_fulfils.
    unfold combine. simpl default. rewrite !List.map_app, !concat_app. simpl.
    rewrite Hrej. simpl. reflexivity.
Qed.

Lemma searchMultipleTypes_skips_failure_witness :
  searchMultipleTypes flat_distance true cafe_service (Some ["cafe"; "bar"])
    (Some ["coffee"]) origin 2000
  = searchMultipleTypes flat_distance true cafe_service (Some ["cafe"])
      (Some ["coffee"]) origin 2000.
Proof.
  apply (proj1 (searchMultipleTypes_skips_failure flat_distance true
                  cafe_service origin 2000 ["cafe"] [] ["coffee"] [])
           "bar" "Places search failed: REQUEST_DENIED").
  reflexivity.
Defined.

(** ** The details cache, continued *)

Lemma cache_step_frame googleInstance id st e :
  is_clear e = false -> is_success_for id e = false ->
  fst (cache_step googleInstance st e) !! id = fst st !! id.
Proof.
  intros Hc Hs. destruct e as [now placeId | now placeId r status |]; simpl in *.
  - destruct (getPlaceDetails googleInstance st.1 now placeId); reflexivity.
  - destruct status; simpl; try reflexivity.
    apply String.eqb_neq in Hs. now rewrite lookup_insert_ne.
  - discriminate.
Qed.

Lemma cache_run_frame googleInstance id es : forall st,
  existsb is_clear es = false -> existsb (is_success_for id) es = false ->
  fst (cache_run googleInstance st es) !! id = fst st !! id.
Proof.
  induction es as [|e es IH]; simpl; intros st Hc Hs; [reflexivity |].
  apply orb_false_iff in Hc, Hs. destruct Hc as [Hc1 Hc2], Hs as [Hs1 Hs2].
  change (cache_run googleInstance st (e :: es))
    with (cache_run googleInstance (cache_step googleInstance st e) es).
  rewrite IH by assumption. now apply cache_step_frame.
Qed.

Lemma cache_run_absent googleInstance id es : forall st,
  fst st !! id = None -> existsb (is_success_for id) es = false ->
  fst (cache_run googleInstance st es) !! id = None.
Proof.
  induction es as [|e es IH]; simpl; intros st Hn Hs; [exact Hn |].
  apply orb_false_iff in Hs. destruct Hs as [Hs1 Hs2].
  change (cache_run googleInstance st (e :: es))
    with (cache_run googleInstance (cache_step googleInstance st e) es).
  apply IH; [| exact Hs2].
  destruct e as [now placeId | now placeId r status |]; simpl in *.
  - destruct (getPlaceDetails googleInstance st.1 now placeId); exact Hn.
  - destruct status; simpl; try exact Hn.
    apply String.eqb_neq in Hs1. now rewrite lookup_insert_ne.
  - apply lookup_empty.
Qed.

(** X12.  A cached record expires: when no later lookup of [id] has
    succeeded, a call for [id] made [CACHE_DURATION] or more after the
    successful lookup does not use the record but goes to the provider
    (and rejects at once when the Maps API is not loaded); the request is
    added to the requests issued. *)
Theorem getPlaceDetails_expires (googleInstance : bool)
    (cache0 : gmap string CacheEntry) (issued0 : list string)
    (t1 : Z) (id : string) (result : Place.t)
    (es : list cache_event) (t2 : Z) :
  let st1 := cache_step googleInstance (cache0, issued0)
               (Callback t1 id result PlacesService.OK) in
  let st2 := cache_run googleInstance st1 es in
  existsb is_clear es = false ->
  existsb (is_success_for id) es = false ->
  (CACHE_DURATION <= t2 - t1)%Z ->
  getPlaceDetails googleInstance (fst st2) t2 id
  = (if googleInstance then ProviderRequest id else NotLoaded) /\
  cache_step googleInstance st2 (Call t2 id)
  = (if googleInstance then (fst st2, id :: snd st2) else st2).
Proof.
  intros st1 st2 Hclear Hnone Hlate.
  assert (Hl : fst st2 !! id = Some {| data := result; timestamp := t1 |}).
  { subst st2. rewrite (cache_run_frame _ _ _ _ Hclear Hnone). subst st1.
    simpl. apply lookup_insert_eq. }
  assert (Hcall : getPlaceDetails googleInstance (fst st2) t2 id
                  = (if googleInstance then ProviderRequest id else NotLoaded)).
  { unfold getPlaceDetails. rewrite Hl. simpl.
    replace (t2 - t1 <? CACHE_DURATION)%Z with false
      by (symmetry; apply Z.ltb_ge; lia).
    destruct googleInstance; reflexivity. }
  split; [exact Hcall |]. simpl. rewrite Hcall.
  destruct googleInstance; [reflexivity | now destruct st2].
Qed.

Lemma getPlaceDetails_expires_witness :
  let st2 := cache_run true
               (cache_step true (∅, [])
                  (Callback 1000 "p" (bare_place "p") PlacesService.OK))
               [Call 2000 "p"] in
  getPlaceDetails true (fst st2) 301000 "p" = ProviderRequest "p" /\
  snd (cache_step true st2 (Call 301000 "p")) = ["p"].
Proof.
  intros st2.
  destruct (getPlaceDetails_expires true ∅ [] 1000 "p" (bare_place "p")
              [Call 2000 "p"] 301000) as [Hcall Hstep];
    [reflexivity | reflexivity | discriminate |].
  fold st2 in Hcall, Hstep. rewrite Hcall, Hstep. split; reflexivity.
Defined.

(** X13.  [clearDetailsCache] forgets every record: until a lookup of [id]
    succeeds again, every call for [id] goes to the provider, however
    recently a record for it had been cached. *)
Theorem clearDetailsCache_forgets (googleInstance : bool)
    (st : gmap string CacheEntry * list string) (id : string)
    (es : list cache_event) (t2 : Z) :
  existsb (is_success_for id) es = false ->
  getPlaceDetails googleInstance
    (fst (cache_run googleInstance (cache_step googleInstance st Clear) es))
    t2 id
  = (if googleInstance then ProviderRequest id else NotLoaded).
Proof.
  intros Hnone. unfold getPlaceDetails.
  rewrite (cache_run_absent googleInstance id es); [| apply lookup_empty | exact Hnone].
  destruct googleInstance; reflexivity.
Qed.

Lemma clearDetailsCache_forgets_witness :
  getPlaceDetails true
    (fst (cache_run true
            (cache_step true
               (cache_step true (∅, [])
                  (Callback 1000 "p" (bare_place "p") PlacesService.OK))
               Clear)
            [Call 1500 "q"]))
    2000 "p"
  = ProviderRequest "p".
Proof.
  apply (clearDetailsCache_forgets true
           (cache_step true (∅, [])
              (Callback 1000 "p" (bare_place "p") PlacesService.OK))
           "p" [Call 1500 "q"] 2000).
  reflexivity.
Defined.

(** ** Categories of a result list *)

Lemma JSSet_add_In (s : list string) (x t : string) :
  In t (JSSet.add s x) <-> In t s \/ t = x.
Proof.
  unfold JSSet.add. destruct (JS.includes_str s x) eqn:E.
  - apply includes_str_In in E. split; [tauto |]. intros [H | ->]; assumption.
  - rewrite in_app_iff. simpl. intuition congruence.
Qed.

Lemma JSSet_add_NoDup (s : list string) (x : string) :
  NoDup s -> NoDup (JSSet.add s x).
Proof.
  intros Hnd. unfold JSSet.add. destruct (JS.includes_str s x) eqn:E; [exact Hnd |].
  apply NoDup_app. split; [exact Hnd |]. split; [| apply NoDup_singleton].
  intros y Hy Hx. apply list_elem_of_In in Hy, Hx. destruct Hx as [<- | []].
  apply includes_str_In in Hy. congruence.
Qed.

Lemma fold_add (types : list string) : forall s,
  (NoDup s -> NoDup (fold_left JSSet.add types s)) /\
  (forall t, In t (fold_left JSSet.add types s) <-> In t s \/ In t types).
Proof.
  induction types as [|x types IH]; simpl; intros s.
  - split; [auto | intros t; tauto].
  - destruct (IH (JSSet.add s x)) as [IH1 IH2]. split.
    + intros Hnd. now apply IH1, JSSet_add_NoDup.
    + intros t. rewrite IH2, JSSet_add_In. intuition congruence.
Qed.

(** X14.  [getUniqueCategories] lists every type that occurs in the types
    of some place, and only those, each once. *)
Theorem getUniqueCategories_exact (places : list Place.t) :
  NoDup (getUniqueCategories places) /\
  forall t, In t (getUniqueCategories places) <->
            exists place types, In place places /\
                                Place.types place = Some types /\ In t types.
Proof.
  unfold getUniqueCategories.
  assert (H : forall s,
    (NoDup s ->
     NoDup (fold_left (fun categories place =>
              match Place.types place with
              | Some types => fold_left JSSet.add types categories
              | None => categories
              end) places s)) /\
    (forall t, In t (fold_left (fun categories place =>
                 match Place.types place with
                 | Some types => fold_left JSSet.add types categories
                 | None => categories
                 end) places s) <->
               In t s \/ exists place types,
                 In place places /\ Place.types place = Some types /\
                 In t types)).
  { induction places as [|place places IH]; simpl; intros s.
    - split; [auto |]. intros t. split; [tauto |].
      intros [H | (p & ts & [] & _)]. exact H.
    - destruct (Place.types place) as [types|] eqn:Et.
      + destruct (IH (fold_left JSSet.add types s)) as [IH1 IH2].
        destruct (fold_add types s) as [F1 F2]. split; [auto |].
        intros t. rewrite IH2, F2. split.
        * intros [[H | H] | (p & ts & Hp & Hts & Ht)]; [tauto | |].
          -- right. exists place, types. auto.
          -- right. exists p, ts. auto.
        * intros [H | (p & ts & [<- | Hp] & Hts & Ht)]; [tauto | |].
          -- rewrite Et in Hts. injection Hts as <-. tauto.
          -- right. exists p, ts. auto.
      + destruct (IH s) as [IH1 IH2]. split; [auto |].
        intros t. rewrite IH2. split.
        * intros [H | (p & ts & Hp & Hts & Ht)]; [tauto |].
          right. exists p, ts. auto.
        * intros [H | (p & ts & [<- | Hp] & Hts & Ht)]; [tauto | congruence |].
          right. exists p, ts. auto. }
  destruct (H []) as [H1 H2]. split; [apply H1; constructor |].
  intros t. rewrite H2. simpl. tauto.
Qed.

Lemma places_of_type_snoc (pre : list Place.t) (place : Place.t) (key : string) :
  places_of_type (pre ++ [place]) key =
  if String.eqb (primaryType place) key
  then Some (List.filter (fun p => String.eqb (primaryType p) key) pre
             ++ [place])%list
  else places_of_type pre key.
Proof.
  unfold places_of_type. rewrite List.filter_app. simpl.
  destruct (String.eqb (primaryType place) key).
  - destruct (List.filter _ pre); reflexivity.
  - now rewrite app_nil_r.
Qed.

Lemma group_place_step (g : gmap string (list Place.t))
    (pre : list Place.t) (place : Place.t) :
  (forall key, g !! key = places_of_type pre key) ->
  JS.includes_str JS.Object_prototype_names (primaryType place) = false ->
  exists g', group_place (Some g) place = Some g' /\
             forall key, g' !! key = places_of_type (pre ++ [place]) key.
Proof.
  intros Hinv Hok. unfold group_place. rewrite Hok.
  destruct (g !! primaryType place) as [group|] eqn:Eg.
  - eexists. split; [reflexivity |]. intros key.
    rewrite places_of_type_snoc.
    destruct (String.eqb (primaryType place) key) eqn:E.
    + apply String.eqb_eq in E. subst key. rewrite lookup_insert_eq.
      rewrite Hinv in Eg. unfold places_of_type in Eg.
      destruct (List.filter _ pre) eqn:Ef; [discriminate |].
      now injection Eg as <-.
    + apply String.eqb_neq in E. rewrite lookup_insert_ne by exact E.
      apply Hinv.
  - eexists. split; [reflexivity |]. intros key.
    rewrite places_of_type_snoc.
    destruct (String.eqb (primaryType place) key) eqn:E.
    + apply String.eqb_eq in E. subst key. rewrite lookup_insert_eq.
      rewrite Hinv in Eg. unfold places_of_type in Eg.
      destruct (List.filter _ pre) eqn:Ef; [reflexivity | discriminate].
    + apply String.eqb_neq in E. rewrite lookup_insert_ne by exact E.
      apply Hinv.
Qed.

Lemma group_fold_None (l : list Place.t) : fold_left group_place l None = None.
Proof. induction l as [|p l IH]; simpl; [reflexivity | exact IH]. Qed.

Lemma group_fold (l : list Place.t) : forall pre g,
  (forall key, g !! key = places_of_type pre key) ->
  Forall (fun p => JS.includes_str JS.Object_prototype_names (primaryType p)
                   = false) pre ->
  if existsb (fun p => JS.includes_str JS.Object_prototype_names
                         (primaryType p)) l
  then fold_left group_place l (Some g) = None
  else exists g', fold_left group_place l (Some g) = Some g' /\
                  forall key, g' !! key = places_of_type (pre ++ l) key.
Proof.
  induction l as [|place l IH]; intros pre g Hinv Hpre; cbn [existsb fold_left].
  - exists g. split; [reflexivity |]. now rewrite app_nil_r.
  - destruct (JS.includes_str JS.Object_prototype_names (primaryType place))
      eqn:Ebad; cbn [orb].
    + assert (Hnone : g !! primaryType place = None).
      { rewrite Hinv. unfold places_of_type.
        replace (List.filter _ pre) with (@nil Place.t); [reflexivity |].
        symmetry. apply filter_nil_iff. intros p Hp.
        rewrite List.Forall_forall in Hpre. specialize (Hpre p Hp).
        cbv beta in Hpre. apply String.eqb_neq. intros Heq.
        rewrite Heq in Hpre. congruence. }
      assert (Hgp : group_place (Some g) place = None).
      { unfold group_place. now rewrite Hnone, Ebad. }
      rewrite Hgp. apply group_fold_None.
    + destruct (group_place_step g pre place Hinv Ebad) as (g1 & Hstep & Hinv1).
      rewrite Hstep.
      specialize (IH (pre ++ [place])%list g1 Hinv1).
      rewrite <- app_assoc in IH. simpl app in IH. apply IH.
      apply Forall_app. split; [exact Hpre | now repeat constructor].
Qed.

(** X15.  [groupByCategory] groups the places by primary type (the first
    type, or [other]): under each key it holds, in input order, exactly the
    places with that primary type, and it has no empty group.  It throws
    exactly when the primary type of some place is a name inherited from
    [Object.prototype]. *)
Theorem groupByCategory_exact (places : list Place.t) :
  (groupByCategory places = None <->
   exists place, In place places /\
     JS.includes_str JS.Object_prototype_names (primaryType place) = true) /\
  (forall groups, groupByCategory places = Some groups ->
     forall key, groups !! key = places_of_type places key).
Proof.
  pose proof (group_fold places [] ∅) as H. cbn [app] in H.
  specialize (H (fun key => lookup_empty key) (List.Forall_nil _)).
  unfold groupByCategory.
  destruct (existsb _ places) eqn:E.
  - apply existsb_exists in E. rewrite H. split.
    + split; [intros _; exact E | reflexivity].
    + discriminate.
  - destruct H as (g & Hg & Hinv). rewrite Hg. split.
    + split; [discriminate |]. intros Hex.
      apply (proj2 (existsb_exists _ _)) in Hex. congruence.
    + intros groups [= <-]. exact Hinv.
Qed.

Lemma groupByCategory_exact_witness :
  let places := [place_a; place_b; bare_place "x";
                 with_types (bare_place "y") ["cafe"; "bar"]] in
  option_map (fun groups : gmap string (list Place.t) =>
                (groups !! "cafe", groups !! "other", groups !! "zoo"))
             (groupByCategory places)
  = Some (Some [place_a; with_types (bare_place "y") ["cafe"; "bar"]],
          Some [bare_place "x"], None).
Proof.
  intros places. destruct (groupByCategory places) as [groups|] eqn:Hg.
  - simpl. rewrite !(proj2 (groupByCategory_exact places) groups Hg).
    reflexivity.
  - vm_compute in Hg. discriminate.
Defined.

(** ** Bounds of a result list *)

Lemma coordinate_Some (x y : Q) : coordinate x = Some y -> x = y /\ ~ x == 0.
Proof.
  unfold coordinate. destruct (JS.truthy x) eqn:E; [| discriminate].
  intros [= <-]. split; [reflexivity | now apply truthy_true_iff].
Qed.

Lemma coordinate_None (x : Q) : coordinate x = None -> x == 0.
Proof.
  unfold coordinate. destruct (JS.truthy x) eqn:E; [discriminate |].
  intros _. unfold JS.truthy in E. now apply negb_false_iff, Qeq_bool_iff in E.
Qed.

Lemma gt_false_iff (x y : Q) : JS.gt x y = false <-> x <= y.
Proof. unfold JS.gt, JS.lt. rewrite negb_false_iff. apply Qle_bool_iff. Qed.

Lemma lt_false_iff (x y : Q) : JS.lt x y = false <-> y <= x.
Proof. unfold JS.lt. rewrite negb_false_iff. apply Qle_bool_iff. Qed.

Lemma gt_true_iff (x y : Q) : JS.gt x y = true <-> y < x.
Proof. unfold JS.gt. apply lt_true_iff. Qed.

Lemma extend_bounds_spec (b : Q * Q * Q * Q) (place : Place.t) :
  box_grows b (extend_bounds b place) /\
  box_holds (extend_bounds b place) place.
Proof.
  destruct b as [[[n s] e] w]. unfold extend_bounds, box_grows, box_holds.
  destruct (coordinate (Place.lat (Place.location place))) as [lat|] eqn:Elat,
           (coordinate (Place.lng (Place.location place))) as [lng|] eqn:Elng;
    try (apply coordinate_Some in Elat; destruct Elat as [<- _]);
    try (apply coordinate_Some in Elng; destruct Elng as [<- _]);
    try apply coordinate_None in Elat; try apply coordinate_None in Elng;
    repeat match goal with
           | |- context [JS.gt ?a ?b] =>
               let E := fresh "E" in
               destruct (JS.gt a b) eqn:E;
               [apply gt_true_iff in E | apply gt_false_iff in E]
           | |- context [JS.lt ?a ?b] =>
               let E := fresh "E" in
               destruct (JS.lt a b) eqn:E;
               [apply lt_true_iff in E | apply lt_false_iff in E]
           end;
    repeat split; intros; try lra; try contradiction.
Qed.

Lemma box_grows_trans (b1 b2 b3 : Q * Q * Q * Q) :
  box_grows b1 b2 -> box_grows b2 b3 -> box_grows b1 b3.
Proof.
  destruct b1 as [[[n1 s1] e1] w1], b2 as [[[n2 s2] e2] w2],
           b3 as [[[n3 s3] e3] w3]. unfold box_grows. intros. repeat split; lra.
Qed.

Lemma box_holds_grows (b1 b2 : Q * Q * Q * Q) (place : Place.t) :
  box_grows b1 b2 -> box_holds b1 place -> box_holds b2 place.
Proof.
  destruct b1 as [[[n1 s1] e1] w1], b2 as [[[n2 s2] e2] w2].
  unfold box_grows, box_holds. intros Hg [H1 H2].
  split; intros Hnz; [specialize (H1 Hnz) | specialize (H2 Hnz)]; lra.
Qed.

Lemma fold_extend_bounds (places : list Place.t) : forall b,
  box_grows b (fold_left extend_bounds places b) /\
  forall place, In place places ->
                box_holds (fold_left extend_bounds places b) place.
Proof.
  induction places as [|p places IH]; simpl; intros b.
  - split; [| intros place []].
    destruct b as [[[n s] e] w]. unfold box_grows. repeat split; lra.
  - destruct (IH (extend_bounds b p)) as [IHg IHh].
    destruct (extend_bounds_spec b p) as [Hg Hh]. split.
    + eapply box_grows_trans; eassumption.
    + intros place [<- | Hin]; [| now apply IHh].
      eapply box_holds_grows; eassumption.
Qed.

(** X16.  [getBoundsForPlaces] returns null for no places; otherwise the
    bounds it returns contain the center and every place, a place being
    left out of the latitude (longitude) range only when its latitude
    (longitude) is exactly 0. *)
Theorem getBoundsForPlaces_contains (places : list Place.t)
    (center : Place.LatLng) :
  getBoundsForPlaces [] center = None /\
  (places <> [] ->
   exists b, getBoundsForPlaces places center = Some b /\
     south b <= Place.lat center <= north b /\
     west b <= Place.lng center <= east b /\
     forall place, In place places ->
       (~ Place.lat (Place.location place) == 0 ->
        south b <= Place.lat (Place.location place) <= north b) /\
       (~ Place.lng (Place.location place) == 0 ->
        west b <= Place.lng (Place.location place) <= east b)).
Proof.
  split; [reflexivity |]. intros Hne.
  destruct places as [|p0 places0]; [congruence |].
  set (places := p0 :: places0) in *. unfold getBoundsForPlaces. fold places.
  destruct (fold_extend_bounds places
              (Place.lat center, Place.lat center,
               Place.lng center, Place.lng center)) as [Hg Hh].
  destruct (fold_left extend_bounds places _) as [[[n s] e] w].
  unfold box_grows in Hg. eexists. split; [reflexivity |]. simpl.
  split; [lra |]. split; [lra |].
  intros place Hin. specialize (Hh place Hin). unfold box_holds in Hh.
  destruct Hh as [H1 H2].
  split; intros Hnz; [specialize (H1 Hnz) | specialize (H2 Hnz)]; lra.
Qed.

Lemma getBoundsForPlaces_contains_witness :
  exists b,
    getBoundsForPlaces [at_position "a" 1 2; at_position "b" 3 (-3)]
      {| Place.lat := 2; Place.lng := 0 |} = Some b /\
    south b <= 2 <= north b /\ west b <= 0 <= east b.
Proof.
  destruct (proj2 (getBoundsForPlaces_contains
                     [at_position "a" 1 2; at_position "b" 3 (-3)]
                     {| Place.lat := 2; Place.lng := 0 |}))
    as (b & Hb & Hlat & Hlng & _); [discriminate |].
  exists b. repeat split; assumption || apply Hlat || apply Hlng.
Defined.

(** ** Mood suggestions *)

Lemma suggest_app (normalizedInput : string) (suggestions : list Suggestion.t)
    (entry : string * Mood.t) :
  suggest normalizedInput suggestions entry
  = (suggestions ++ suggest_entry normalizedInput entry)%list.
Proof.
  unfold suggest_entry, suggest. destruct entry as [key mapping].
  destruct (JS.includes key normalizedInput); [reflexivity |].
  destruct (existsb _ (Mood.keywords mapping)); [reflexivity |].
  now rewrite app_nil_r.
Qed.

Lemma fold_suggest (normalizedInput : string) (entries : list (string * Mood.t)) :
  forall suggestions,
    fold_left (suggest normalizedInput) entries suggestions
    = (suggestions ++ flat_map (suggest_entry normalizedInput) entries)%list.
Proof.
  induction entries as [|entry entries IH]; simpl; intros suggestions.
  - now rewrite app_nil_r.
  - now rewrite IH, suggest_app, <- app_assoc.
Qed.

Lemma suggest_entry_cases (normalizedInput : string) (entry : string * Mood.t) :
  suggest_entry normalizedInput entry = [] \/
  exists t, suggest_entry normalizedInput entry
            = [ {| Suggestion.value := fst entry;
                   Suggestion.mapping := Some (snd entry);
                   Suggestion.matchType := Some t |} ] /\
    ((t = "name" /\ JS.includes (fst entry) normalizedInput = true) \/
     (t = "keyword" /\ JS.includes (fst entry) normalizedInput = false /\
      existsb (fun kw => JS.includes kw normalizedInput)
        (Mood.keywords (snd entry)) = true)).
Proof.
  unfold suggest_entry, suggest. destruct entry as [key mapping]. simpl.
  destruct (JS.includes key normalizedInput) eqn:E1.
  - right. exists "name". auto.
  - destruct (existsb _ (Mood.keywords mapping)) eqn:E2; [| now left].
    right. exists "keyword". auto.
Qed.

Lemma suggestions_values_sublist (normalizedInput : string)
    (entries : list (string * Mood.t)) :
  sublist (map Suggestion.value
             (flat_map (suggest_entry normalizedInput) entries))
          (map fst entries).
Proof.
  induction entries as [|entry entries IH]; simpl; [constructor |].
  rewrite List.map_app.
  destruct (suggest_entry_cases normalizedInput entry) as [-> | (t & -> & _)];
    simpl; [now apply sublist_cons | now apply sublist_skip].
Qed.

Lemma map_take {A B : Type} (f : A -> B) (n : nat) (l : list A) :
  map f (take n l) = take n (map f l).
Proof.
  revert l. induction n as [|n IH]; intros [|x l]; simpl; try reflexivity.
  now rewrite IH.
Qed.

(** X17.  Whatever order the engine's sort produces, [getMoodSuggestions]
    returns at most 6 suggestions, no mood twice, each a key of the table
    with its mapping.  For an input that is not blank, a suggestion tagged
    [name] has a key that contains the trimmed lower-case input, and one
    tagged [keyword] has no such key but a keyword that contains it. *)
Theorem getMoodSuggestions_sound
    (Array_sort : (Suggestion.t -> Suggestion.t -> Q) ->
                  list Suggestion.t -> list Suggestion.t)
    (input : string) :
  (forall cmp l, Permutation l (Array_sort cmp l)) ->
  let normalizedInput := JS.trim (JS.toLowerCase input) in
  let out := getMoodSuggestions Array_sort input in
  (length out <= 6)%nat /\
  NoDup (map Suggestion.value out) /\
  forall s, In s out ->
    exists m, In (Suggestion.value s, m) moodMappings /\
              Suggestion.mapping s = Some m /\
      (normalizedInput <> "" ->
       (Suggestion.matchType s = Some "name" /\
        JS.includes (Suggestion.value s) normalizedInput = true) \/
       (Suggestion.matchType s = Some "keyword" /\
        JS.includes (Suggestion.value s) normalizedInput = false /\
        existsb (fun kw => JS.includes kw normalizedInput) (Mood.keywords m)
        = true)).
Proof.
  intros Hperm normalizedInput out. subst out. unfold getMoodSuggestions.
  fold normalizedInput. destruct normalizedInput as [|c rest] eqn:En.
  - split; [simpl; lia |]. split.
    + apply (bool_decide_unpack _). vm_compute. reflexivity.
    + intros s Hs. simpl in Hs.
      repeat (destruct Hs as [<- | Hs];
              [eexists; split;
               [| split; [vm_compute; reflexivity | congruence]];
               simpl; repeat (try (left; reflexivity); right) |]).
      destruct Hs.
  - set (ni := String c rest) in *.
    rewrite fold_suggest. simpl app.
    set (suggestions := flat_map (suggest_entry ni) (Object_entries moodMappings)).
    pose proof (Hperm by_matchType suggestions) as Hp.
    split; [rewrite length_take; lia |]. split.
    + apply (sublist_NoDup _ (map Suggestion.value
                                (Array_sort by_matchType suggestions))).
      * rewrite <- (Permutation_map Suggestion.value Hp).
        apply (sublist_NoDup _ _ moodMappings_keys_NoDup).
        apply suggestions_values_sublist.
      * rewrite map_take. apply sublist_take.
    + intros s Hs. apply (sublist_In _ _ _ (sublist_take _ _)) in Hs.
      apply (Permutation_in _ (Permutation_sym Hp)) in Hs.
      subst suggestions. apply in_flat_map in Hs.
      destruct Hs as ([key m] & Hentry & Hs).
      destruct (suggest_entry_cases ni (key, m)) as [Hnil | (t & Heq & Ht)];
        rewrite ?Hnil, ?Heq in Hs; [destruct Hs |].
      destruct Hs as [<- | []]. simpl in *. exists m.
      split; [exact Hentry |]. split; [reflexivity |]. intros _.
      destruct Ht as [[-> H1] | (-> & H1 & H2)]; [left | right]; auto.
Qed.

Lemma getMoodSuggestions_sound_witness :
  (length (getMoodSuggestions JS.sort " Co") <= 6)%nat /\
  NoDup (map Suggestion.value (getMoodSuggestions JS.sort " Co")).
Proof.
  destruct (getMoodSuggestions_sound JS.sort " Co") as (Hlen & Hnd & _).
  - intros cmp l. apply sort_perm.
  - split; assumption.
Defined.

(** ** The hook with both kinds of search *)

Lemma filterAndSortPlaces_within (places : list Place.t) (filters : Filters.t)
    (sortBy : string) (mm : option Mood.t) :
  (length (filterAndSortPlaces places filters sortBy mm) <= length places)%nat
  /\ forall place, In place (filterAndSortPlaces places filters sortBy mm) ->
                   In place places.
Proof.
  unfold filterAndSortPlaces.
  destruct (sortPlaces_sorted (filterPlaces places filters) sortBy mm)
    as [Hp _]. split.
  - rewrite <- (Permutation_length Hp). apply List.filter_length_le.
  - intros place Hin. apply (Permutation_in _ (Permutation_sym Hp)) in Hin.
    unfold filterPlaces in Hin. apply filter_In in Hin. tauto.
Qed.

Lemma lists_in_step_empty (st : UsePlaces.State) :
  UsePlaces.places st = [] -> UsePlaces.filteredPlaces st = [] ->
  lists_in_step st.
Proof.
  intros H1 H2. unfold lists_in_step. rewrite H1, H2. simpl.
  repeat split; try lia; intros place [].
Qed.

Lemma lists_in_step_published (st : UsePlaces.State) (results : list Place.t)
    (filters : Filters.t) (sortBy : string) (mm : option Mood.t) :
  UsePlaces.places st = take UI.MAX_RESULTS results ->
  UsePlaces.filteredPlaces st
  = filterAndSortPlaces (take UI.MAX_RESULTS results) filters sortBy mm ->
  lists_in_step st.
Proof.
  intros H1 H2. unfold lists_in_step. rewrite H1, H2.
  destruct (filterAndSortPlaces_within (take UI.MAX_RESULTS results) filters
              sortBy mm) as [Hlen Hin].
  split; [rewrite length_take; lia |]. split; [exact Hlen | exact Hin].
Qed.

Lemma searchByMood_call_lists mood location service filters0 sortBy0 st :
  lists_in_step st ->
  lists_in_step
    (UsePlaces.searchByMood_call mood location service filters0 sortBy0 st).
Proof.
  intros H. unfold UsePlaces.searchByMood_call.
  destruct location; [| exact H].
  destruct service; simpl; [exact H | now apply lists_in_step_empty].
Qed.

Lemma searchByMood_resume_lists k provider st :
  lists_in_step st -> lists_in_step (UsePlaces.searchByMood_resume k provider st).
Proof.
  intros H. unfold UsePlaces.searchByMood_resume.
  destruct (UsePlaces.searches st !! k) as [cur|]; [| exact H].
  destruct (UsePlaces.awaiting cur); simpl; [| exact H].
  destruct (UsePlaces.search_outcome _ provider) as [results | err];
    [destruct (UsePlaces.moodMapping cur) as [m | n |] |];
    destruct (UsePlaces.abort cur); try exact H.
  - eapply lists_in_step_published; reflexivity.
  - now apply lists_in_step_empty.
Qed.

Lemma searchByMood_call_live mood location service filters0 sortBy0 st :
  current_live st ->
  current_live
    (UsePlaces.searchByMood_call mood location service filters0 sortBy0 st).
Proof.
  intros H. unfold UsePlaces.searchByMood_call.
  destruct location; [| exact H].
  set (searches1 := match UsePlaces.searchAbortRef st with
                    | Some r => alter UsePlaces.set_abort r (UsePlaces.searches st)
                    | None => UsePlaces.searches st
                    end).
  destruct service; simpl; intros k [= <-]; eexists;
    (split; [apply list_lookup_middle; reflexivity | reflexivity]).
Qed.

Lemma searchByMood_resume_live k provider st :
  current_live st -> current_live (UsePlaces.searchByMood_resume k provider st).
Proof.
  intros H. unfold UsePlaces.searchByMood_resume.
  destruct (UsePlaces.searches st !! k) as [cur|] eqn:Ek; [| exact H].
  destruct (UsePlaces.awaiting cur); simpl; [| exact H].
  assert (Hl : forall r, UsePlaces.searchAbortRef st = Some r ->
            exists s, alter UsePlaces.set_resumed k (UsePlaces.searches st) !! r
                      = Some s /\ UsePlaces.abort s = false).
  { intros r Hr. destruct (H r Hr) as (s & Hs & Ha).
    destruct (decide (k = r)) as [-> | Hne].
    - exists (UsePlaces.set_resumed s). rewrite list_lookup_alter_eq, Hs.
      split; [reflexivity | exact Ha].
    - exists s. rewrite list_lookup_alter_ne by exact Hne. now split. }
  destruct (UsePlaces.search_outcome _ provider) as [results | err];
    [destruct (UsePlaces.moodMapping cur) |];
    destruct (UsePlaces.abort cur); exact Hl.
Qed.

(** The three invariants of the hook state, kept by every event. *)
Lemma hook_step_invariants (st : Hook.State) (e : Hook.event) :
  others_aborted (Hook.base st) /\ current_live (Hook.base st) /\
  lists_in_step (Hook.base st) ->
  others_aborted (Hook.base (Hook.step st e)) /\
  current_live (Hook.base (Hook.step st e)) /\
  lists_in_step (Hook.base (Hook.step st e)).
Proof.
  intros (Ho & Hc & Hl).
  destruct e as [[mood location service f0 s0 | k provider]
                | location service f0 s0 | j provider |]; simpl.
  - split; [now apply searchByMood_call_others |].
    split; [now apply searchByMood_call_live | now apply searchByMood_call_lists].
  - split; [now apply searchByMood_resume_others |].
    split; [now apply searchByMood_resume_live
           | now apply searchByMood_resume_lists].
  - unfold Hook.searchByType_call.
    destruct location; [destruct service |]; simpl;
      (split; [exact Ho |]); (split; [exact Hc |]);
      first [exact Hl | now apply lists_in_step_empty].
  - unfold Hook.searchByType_resume.
    destruct (Hook.typeSearches st !! j) as [search|]; [| tauto].
    destruct (Hook.awaiting search); simpl; [| tauto].
    destruct provider as [results | err]; simpl;
      (split; [exact Ho |]); (split; [exact Hc |]).
    + eapply lists_in_step_published; reflexivity.
    + now apply lists_in_step_empty.
  - split; [exact Ho |]. split; [exact Hc |]. now apply lists_in_step_empty.
Qed.

Lemma hook_run_invariants (es : list Hook.event) :
  others_aborted (Hook.base (Hook.run es)) /\
  current_live (Hook.base (Hook.run es)) /\
  lists_in_step (Hook.base (Hook.run es)).
Proof.
  unfold Hook.run, Hook.run_from.
  assert (H0 : others_aborted (Hook.base Hook.initial) /\
               current_live (Hook.base Hook.initial) /\
               lists_in_step (Hook.base Hook.initial)).
  { split; [intros k s Hk; discriminate |].
    split; [intros k Hk; discriminate | now apply lists_in_step_empty]. }
  revert H0. generalize Hook.initial.
  induction es as [|e es IH]; simpl; intros st H; [exact H |].
  apply IH. now apply hook_step_invariants.
Qed.

(** X18.  With searches by type and [clearResults] interleaved at will, the
    response to a mood search other than the latest one still changes
    nothing of what is published. *)
Theorem hook_superseded_never_published
    (es : list Hook.event) (k : nat) (provider : JS.promise (list Place.t)) :
  UsePlaces.searchAbortRef (Hook.base (Hook.run es)) <> Some k ->
  UsePlaces.published
    (Hook.base (Hook.step (Hook.run es)
                  (Hook.Mood (UsePlaces.Settle k provider))))
  = UsePlaces.published (Hook.base (Hook.run es)).
Proof.
  intros Hne. destruct (hook_run_invariants es) as (Inv & _ & _).
  simpl. set (st := Hook.base (Hook.run es)) in *.
  unfold UsePlaces.searchByMood_resume.
  destruct (UsePlaces.searches st !! k) as [cur|] eqn:Ek; [| reflexivity].
  destruct (UsePlaces.awaiting cur); simpl; [| reflexivity].
  rewrite (Inv k cur Ek Hne).
  destruct (UsePlaces.search_outcome _ provider) as [results | err];
    [destruct (UsePlaces.moodMapping cur) |]; reflexivity.
Qed.

(** X20.  Whatever happens, the hook never publishes more than
    [MAX_RESULTS] places, and the filtered places it publishes are among
    the places it publishes. *)
Theorem hook_lists_in_step (es : list Hook.event) :
  let st := Hook.base (Hook.run es) in
  (length (UsePlaces.places st) <= 20)%nat /\
  (length (UsePlaces.filteredPlaces st) <= length (UsePlaces.places st))%nat /\
  forall place, In place (UsePlaces.filteredPlaces st) ->
                In place (UsePlaces.places st).
Proof. intros st. apply (hook_run_invariants es). Qed.

Lemma hook_superseded_never_published_witness :
  let es := [Hook.Mood (UsePlaces.Search_call "coffee" (Some origin) true
                          DEFAULT_FILTERS SORT_OPTIONS.BEST_MATCH);
             Hook.Clear_results;
             Hook.Mood (UsePlaces.Search_call "drinks" (Some origin) true
                          DEFAULT_FILTERS SORT_OPTIONS.BEST_MATCH);
             Hook.Type_call (Some origin) true DEFAULT_FILTERS
               SORT_OPTIONS.NEAREST;
             Hook.Type_settle 0 (JS.Fulfilled [place_b])] in
  UsePlaces.places (Hook.base (Hook.run es)) = [place_b] /\
  UsePlaces.published
    (Hook.base (Hook.step (Hook.run es)
                  (Hook.Mood (UsePlaces.Settle 0 (JS.Fulfilled [place_a])))))
  = UsePlaces.published (Hook.base (Hook.run es)).
Proof.
  intros es. split; [reflexivity |].
  apply (hook_superseded_never_published es 0 (JS.Fulfilled [place_a])).
  discriminate.
Defined.

Lemma hook_step_other (st : Hook.State) (e : Hook.event) :
  Hook.is_mood e = false ->
  UsePlaces.searches (Hook.base (Hook.step st e))
  = UsePlaces.searches (Hook.base st) /\
  UsePlaces.searchAbortRef (Hook.base (Hook.step st e))
  = UsePlaces.searchAbortRef (Hook.base st).
Proof.
  destruct e as [e | location service f0 s0 | j provider |]; simpl;
    [discriminate | | |]; intros _.
  - unfold Hook.searchByType_call.
    destruct location; [destruct service |]; simpl; split; reflexivity.
  - unfold Hook.searchByType_resume.
    destruct (Hook.typeSearches st !! j) as [search|]; [| now split].
    destruct (Hook.awaiting search); simpl; [| now split].
    destruct provider; simpl; split; reflexivity.
  - split; reflexivity.
Qed.

Lemma hook_run_other (es : list Hook.event) : forall st,
  existsb Hook.is_mood es = false ->
  UsePlaces.searches (Hook.base (Hook.run_from st es))
  = UsePlaces.searches (Hook.base st) /\
  UsePlaces.searchAbortRef (Hook.base (Hook.run_from st es))
  = UsePlaces.searchAbortRef (Hook.base st).
Proof.
  induction es as [|e es IH]; intros st Hes; [now split |].
  cbn [existsb] in Hes. apply orb_false_iff in Hes. destruct Hes as [He Hes].
  change (Hook.run_from st (e :: es))
    with (Hook.run_from (Hook.step st e) es).
  destruct (IH (Hook.step st e) Hes) as [-> ->]. now apply hook_step_other.
Qed.

(** X19.  Neither [searchByType] nor [clearResults] cancels a mood search:
    when the latest mood search is still awaiting its response, that
    response is published whenever it arrives, whatever searches by type
    and calls of [clearResults] happened in between.  The places published
    are the first [MAX_RESULTS] results, each with its relevance score for
    the mood, and loading ends.  (The filtered places are left out: the
    hook's re-filter effect recomputes them from the published places once
    these change.) *)
Theorem pending_mood_search_survives
    (es es' : list Hook.event) (k : nat) (s : UsePlaces.Search) (m : Mood.t)
    (results : list Place.t) :
  let st := Hook.run es in
  UsePlaces.searchAbortRef (Hook.base st) = Some k ->
  UsePlaces.searches (Hook.base st) !! k = Some s ->
  UsePlaces.awaiting s = true ->
  UsePlaces.moodMapping s = Mapping m ->
  existsb Hook.is_mood es' = false ->
  let st' := Hook.step (Hook.run_from st es')
               (Hook.Mood (UsePlaces.Settle k (JS.Fulfilled results))) in
  let scored :=
    take UI.MAX_RESULTS
      (map (fun place =>
              Place.with_relevanceScore place (calculateRelevanceScore place m))
           results) in
  UsePlaces.places (Hook.base st') = scored /\
  UsePlaces.loading (Hook.base st') = false.
Proof.
  intros st Href Hk Haw Hm Hes st' scored.
  destruct (hook_run_invariants es) as (_ & Hlive & _). fold st in Hlive.
  destruct (Hlive k Href) as (s0 & Hs0 & Hab).
  assert (s0 = s) by congruence. subst s0.
  destruct (hook_run_other es' st Hes) as [Hsearches Hrefs].
  subst st'. simpl. unfold UsePlaces.searchByMood_resume.
  rewrite Hsearches, Hk, Haw, Hm, Hab. simpl. repeat split.
Qed.

Lemma pending_mood_search_survives_witness :
  let es := [Hook.Mood (UsePlaces.Search_call "coffee" (Some origin) true
                          DEFAULT_FILTERS SORT_OPTIONS.BEST_MATCH)] in
  let es' := [Hook.Clear_results;
              Hook.Type_call (Some origin) true DEFAULT_FILTERS
                SORT_OPTIONS.NEAREST;
              Hook.Type_settle 0 (JS.Fulfilled [place_b])] in
  UsePlaces.places
    (Hook.base (Hook.step (Hook.run_from (Hook.run es) es')
                  (Hook.Mood (UsePlaces.Settle 0 (JS.Fulfilled [place_a])))))
  = [Place.with_relevanceScore place_a 70].
Proof.
  intros es es'.
  apply (pending_mood_search_survives es es' 0
           {| UsePlaces.abort := false; UsePlaces.awaiting := true;
              UsePlaces.moodMapping := Mapping coffee;
              UsePlaces.filters := DEFAULT_FILTERS;
              UsePlaces.sortBy := SORT_OPTIONS.BEST_MATCH |}
           coffee [place_a]); reflexivity.
Defined.

(** ** Ranges and defaults *)

Lemma Math_min_range (x : Q) : 0 <= x -> 0 <= JS.Math_min x 1 <= 1.
Proof.
  intros H. unfold JS.Math_min. destruct (Qle_bool x 1) eqn:E.
  - apply Qle_bool_iff in E. lra.
  - lra.
Qed.

Lemma Math_max_range (x : Q) : x <= 20 -> 0 <= JS.Math_max 0 x <= 20.
Proof.
  intros H. unfold JS.Math_max. destruct (Qle_bool 0 x) eqn:E.
  - apply Qle_bool_iff in E. lra.
  - lra.
Qed.

Lemma field_cases (o : option Q) :
  JS.truthy_field o = None \/ exists x, o = Some x /\ JS.truthy_field o = Some x.
Proof.
  destruct (JS.truthy_field o) as [x|] eqn:E; [| now left].
  right. exists x. apply truthy_field_Some in E. now destruct E.
Qed.

(** X21.  The best-match score stays between 0 and 100 for a place whose
    rating lies between 0 and 5 and whose rating count and distance are
    not negative: at most 30 points for relevance, 25 for the rating, 15
    for popularity, 20 for closeness and 10 for being open. *)
Theorem calculatePlaceScore_range (place : Place.t) (mm : option Mood.t) :
  (forall r, Place.rating place = Some r -> 0 <= r <= 5) ->
  (forall c, Place.user_ratings_total place = Some c -> 0 <= c) ->
  (forall d, Place.distance place = Some d -> 0 <= d) ->
  0 <= calculatePlaceScore place mm <= 100.
Proof.
  intros Hr Hc Hd. unfold calculatePlaceScore.
  assert (Hrel : exists rel, 0 <= rel <= 30 /\
            match mm with
            | Some m => 0 + inject_Z (calculateRelevanceScore place m) * 0.3
            | None => 0
            end == rel).
  { destruct mm as [m|]; [| exists 0; split; [lra | reflexivity]].
    eexists. split; [| reflexivity].
    assert (H : (0 <= calculateRelevanceScore place m <= 100)%Z)
      by (unfold calculateRelevanceScore; lia).
    destruct H as [H0 H100].
    assert (0 <= inject_Z (calculateRelevanceScore place m))
      by (change 0 with (inject_Z 0); now rewrite <- Zle_Qle).
    assert (inject_Z (calculateRelevanceScore place m) <= 100)
      by (change 100 with (inject_Z 100); now rewrite <- Zle_Qle).
    lra. }
  destruct Hrel as (rel & Hrel & Heq).
  assert (Hrat : exists x, 0 <= x <= 25 /\
            forall s, match JS.truthy_field (Place.rating place) with
                      | Some rating => s + rating / 5 * 25
                      | None => s
                      end == s + x).
  { destruct (field_cases (Place.rating place)) as [-> | (r & Er & ->)].
    - exists 0. split; [lra | intros; ring].
    - exists (5 * r). specialize (Hr r Er). split; [lra | intros; field]. }
  destruct Hrat as (x1 & Hx1 & Heq1).
  assert (Hpop : exists x, 0 <= x <= 15 /\
            forall s, match JS.truthy_field (Place.user_ratings_total place) with
                      | Some c => s + JS.Math_min (c / 500) 1 * 15
                      | None => s
                      end == s + x).
  { destruct (field_cases (Place.user_ratings_total place))
      as [-> | (c & Ec & ->)].
    - exists 0. split; [lra | intros; ring].
    - exists (JS.Math_min (c / 500) 1 * 15). specialize (Hc c Ec).
      assert (H500 : c / 500 == c * (1 # 500)) by field.
      assert (0 <= c / 500) by (rewrite H500; lra).
      pose proof (Math_min_range (c / 500)). split; [lra | intros; ring]. }
  destruct Hpop as (x2 & Hx2 & Heq2).
  assert (Hdist : exists x, 0 <= x <= 20 /\
            forall s, match JS.truthy_field (Place.distance place) with
                      | Some d => s + JS.Math_max 0 (20 - d / 500)
                      | None => s
                      end == s + x).
  { destruct (field_cases (Place.distance place)) as [-> | (d & Ed & ->)].
    - exists 0. split; [lra | intros; ring].
    - exists (JS.Math_max 0 (20 - d / 500)). specialize (Hd d Ed).
      assert (H500 : d / 500 == d * (1 # 500)) by field.
      assert (20 - d / 500 <= 20) by (rewrite H500; lra).
      pose proof (Math_max_range (20 - d / 500)). split; [lra | intros; ring]. }
  destruct Hdist as (x3 & Hx3 & Heq3).
  assert (Hsum : (if Place.is_open_now place
                  then rel + x1 + x2 + x3 + 10 else rel + x1 + x2 + x3)
                 == calculatePlaceScore place mm).
  { unfold calculatePlaceScore.
    destruct (Place.is_open_now place); rewrite Heq3, Heq2, Heq1, Heq; ring. }
  unfold calculatePlaceScore in Hsum. rewrite <- Hsum.
  destruct (Place.is_open_now place); lra.
Qed.

Lemma calculatePlaceScore_range_witness :
  0 <= calculatePlaceScore busy_cafe (Some coffee) <= 100.
Proof.
  apply (calculatePlaceScore_range busy_cafe (Some coffee)).
  - intros r [= <-]. split; discriminate.
  - intros c [= <-]. discriminate.
  - intros d [= <-]. discriminate.
Defined.

(** X22.  With the default filters a place is removed only for being
    farther away than 5000 m (or for a negative rating): opening hours,
    price level, types and name play no part. *)
Theorem filterPlaces_default (place : Place.t) :
  filterPlaces_keep DEFAULT_FILTERS place = true <->
  ~ (exists d, Place.distance place = Some d /\ 5000 < d) /\
  ~ (exists r, Place.rating place = Some r /\ r < 0).
Proof.
  unfold filterPlaces_keep, DEFAULT_FILTERS. simpl.
  destruct (field_cases (Place.rating place)) as [Er | (r & Er & Er')];
    destruct (field_cases (Place.distance place)) as [Ed | (d & Ed & Ed')];
    rewrite ?Er', ?Ed'.
  - rewrite Er, Ed. apply truthy_field_None in Er, Ed. split; [| reflexivity].
    intros _. split.
    + intros (d & Hd & Hlt). destruct Ed as [Ed | (x & Ex & Hx)]; [congruence |].
      assert (x = d) by congruence. subst. lra.
    + intros (r & Hr & Hlt). destruct Er as [Er | (x & Ex & Hx)]; [congruence |].
      assert (x = r) by congruence. subst. lra.
  - rewrite Er. apply truthy_field_None in Er.
    destruct (JS.gt d SEARCH_RADIUS.FAR) eqn:E.
    + apply gt_true_iff in E. unfold SEARCH_RADIUS.FAR in E.
      split; [discriminate |]. intros [H _]. exfalso. apply H. eauto.
    + apply gt_false_iff in E. unfold SEARCH_RADIUS.FAR in E.
      split; [| reflexivity]. intros _. split.
      * intros (d' & Hd & Hlt). assert (d' = d) by congruence. subst. lra.
      * intros (r & Hr & Hlt).
        destruct Er as [Er | (x & Ex & Hx)]; [congruence |].
        assert (x = r) by congruence. subst. lra.
  - rewrite Ed. apply truthy_field_None in Ed.
    destruct (JS.lt r 0) eqn:E.
    + apply lt_true_iff in E. split; [discriminate |]. intros [_ H].
      exfalso. apply H. eauto.
    + apply lt_false_iff in E. split; [| reflexivity]. intros _. split.
      * intros (d & Hd & Hlt).
        destruct Ed as [Ed | (x & Ex & Hx)]; [congruence |].
        assert (x = d) by congruence. subst. lra.
      * intros (r' & Hr & Hlt). assert (r' = r) by congruence. subst. lra.
  - destruct (JS.lt r 0) eqn:E.
    + apply lt_true_iff in E. split; [discriminate |]. intros [_ H].
      exfalso. apply H. eauto.
    + apply lt_false_iff in E.
      destruct (JS.gt d SEARCH_RADIUS.FAR) eqn:E'.
      * apply gt_true_iff in E'. unfold SEARCH_RADIUS.FAR in E'.
        split; [discriminate |]. intros [H _]. exfalso. apply H. eauto.
      * apply gt_false_iff in E'. unfold SEARCH_RADIUS.FAR in E'.
        split; [| reflexivity]. intros _. split.
        -- intros (d' & Hd & Hlt). assert (d' = d) by congruence. subst. lra.
        -- intros (r' & Hr & Hlt). assert (r' = r) by congruence. subst. lra.
Qed.

(** X23.  With [openNow] set, a place whose opening hours are known but do
    not say open (closed, or without [open_now] flag) is removed whatever
    the other criteria; a place without opening hours, or open now, fares
    as it does with [openNow] off. *)
Theorem filterPlaces_openNow (filters : Filters.t) (place : Place.t) :
  (forall hours, Place.opening_hours place = Some hours ->
                 Place.open_now hours <> Some true ->
                 filterPlaces_keep (set_openNow filters true) place = false) /\
  (Place.opening_hours place = None \/
   Place.opening_hours place = Some {| Place.open_now := Some true |} ->
   filterPlaces_keep (set_openNow filters true) place
   = filterPlaces_keep (set_openNow filters false) place).
Proof.
  split.
  - intros hours Hh Hclosed. unfold filterPlaces_keep. simpl. rewrite Hh.
    assert (Hneg : negb (default false (Place.open_now hours)) = true).
    { destruct (Place.open_now hours) as [[]|]; [congruence | |]; reflexivity. }
    rewrite Hneg.
    destruct (JS.truthy_field (Place.rating place)) as [r|];
      [destruct (JS.lt r _); [reflexivity |] |];
      (destruct (JS.truthy_field (Place.distance place)) as [d|],
               (Filters.maxDistance filters) as [md|];
       [destruct (JS.gt d md) | | |]; reflexivity).
  - intros H. unfold filterPlaces_keep. simpl.
    destruct H as [-> | ->]; reflexivity.
Qed.

Lemma filterPlaces_openNow_witness :
  filterPlaces_keep (set_openNow DEFAULT_FILTERS true)
    (with_hours (bare_place "h") None) = false /\
  filterPlaces_keep (set_openNow DEFAULT_FILTERS true) (bare_place "n")
  = filterPlaces_keep (set_openNow DEFAULT_FILTERS false) (bare_place "n").
Proof.
  split.
  - apply (proj1 (filterPlaces_openNow DEFAULT_FILTERS
                    (with_hours (bare_place "h") None))
             {| Place.open_now := None |}); [reflexivity | discriminate].
  - apply (proj2 (filterPlaces_openNow DEFAULT_FILTERS (bare_place "n"))).
    left. reflexivity.
Defined.
